(** * A shallow embedding of [BaseRepositoryService]

    The repository is a facade over a Mongoose model: every public method
    builds a driver query from a uniform option record, runs it, and (for the
    paginated reads) derives the pagination metadata.  The development below
    follows the TypeScript class method by method.

    - [JS]        the fragment of JavaScript values the class computes with;
    - [Schema]    the types the class is generic over;
    - option records ([FindOptions], [UpdateOptions], ...);
    - [Query], [Model]  the calls the class makes on the model handle;
    - [Promise]   asynchronous programs over those calls;
    - [BaseRepositoryService]  the methods of the class;
    - [Reference] a small executable driver used to state results. *)

From Stdlib Require Import ZArith QArith Qround Qreduction List Sorted String
  Bool Lia.
Import ListNotations.
Local Open Scope Z_scope.

Set Implicit Arguments.

(* ================================================================== *)
(** ** JavaScript values *)
(* ================================================================== *)

Module JS.

(** [number]: an IEEE 754 binary64 value.  A finite non-zero double is
    held by its exact value, a rational in lowest terms; the two zeros and
    the two infinities carry their sign.  Not every rational is a double:
    [is_double] below tells which are. *)
Inductive number : Type :=
| NaN
| Infinity (negative : bool)
| Zero (negative : bool)
| Finite (q : Q).

(** The double equal to the integer [z], for [z] a double (every integer up
    to 2^53 in magnitude is one). *)
Definition Int (z : Z) : number :=
  if z =? 0 then Zero false else Finite (inject_Z z).

(** *** Rounding to nearest, ties to even

    Every arithmetic operation returns the double nearest to the exact
    result.  For a positive rational [a/b] with [2^k <= a/b < 2^(k+1)] the
    doubles around it are the multiples of [2^e], [e = max (k-52) (-1074)]
    (53 significant bits, or the fixed spacing of the subnormals); the
    result is the nearest multiple, the even one on a tie, zero when that
    multiple is 0 and infinite when it reaches [2^1024]. *)
Inductive magnitude : Type :=
| Underflow
| Overflow
| Mag (q : Q).

(** [(a/b) / 2^e] as a fraction of integers. *)
Definition scaled (a b : positive) (e : Z) : Z * Z :=
  if 0 <=? e then (Zpos a, Zpos b * 2 ^ e)
  else (Zpos a * 2 ^ (- e), Zpos b).

(** [2^e] for a positive [e], 1 otherwise. *)
Definition up (e : Z) : Z := 2 ^ Z.max 0 e.

(** [2^53]: every integer up to it in magnitude is a double. *)
Definition two53 : Z := 9007199254740992.

(** [floor (log2 (a/b))] *)
Definition ilog2 (a b : positive) : Z :=
  let k := Z.log2 (Zpos a) - Z.log2 (Zpos b) in
  let '(n, d) := scaled a b k in
  if d <=? n then k else k - 1.

(** The integer nearest to [n/d], the even one on a tie. *)
Definition nearest_even (n d : Z) : Z :=
  let q := n / d in
  match (2 * (n mod d)) ?= d with
  | Lt => q
  | Gt => q + 1
  | Eq => if Z.even q then q else q + 1
  end.

Definition round_magnitude (a b : positive) : magnitude :=
  let k := ilog2 a b in
  let e := Z.max (k - 52) (-1074) in
  let '(n, d) := scaled a b e in
  let m := nearest_even n d in
  if m =? 0 then Underflow
  else if 0 <=? e then
         (if 2 ^ 1024 <=? m * 2 ^ e then Overflow
          else Mag (inject_Z (m * 2 ^ e)))
       else Mag (Qred (m # Z.to_pos (2 ^ (- e)))).

Definition signed (s : bool) (m : magnitude) : number :=
  match m with
  | Underflow => Zero s
  | Overflow => Infinity s
  | Mag q => Finite (if s then Qopp q else q)
  end.

(** The double nearest to the rational [q]; an exact zero is [+0]. *)
Definition round (q : Q) : number :=
  match Qnum q with
  | Z0 => Zero false
  | Zpos a => signed false (round_magnitude a (Qden q))
  | Zneg a => signed true (round_magnitude a (Qden q))
  end.

(** Whether [a] is a double: a finite value must be its own rounding. *)
Definition is_double (a : number) : bool :=
  match a with
  | Finite x =>
      match round x with
      | Finite y => (Qnum x =? Qnum y) && Pos.eqb (Qden x) (Qden y)
      | _ => false
      end
  | _ => true
  end.

Definition negative (q : Q) : bool := Qnum q <? 0.

(** [- a] *)
Definition neg (a : number) : number :=
  match a with
  | NaN => NaN
  | Infinity s => Infinity (negb s)
  | Zero s => Zero (negb s)
  | Finite x => Finite (Qopp x)
  end.

(** [a - b] *)
Definition sub (a b : number) : number :=
  match a, b with
  | NaN, _ | _, NaN => NaN
  | Infinity s, Infinity t => if Bool.eqb s t then NaN else Infinity s
  | Infinity s, _ => Infinity s
  | _, Infinity t => Infinity (negb t)
  | Zero s, Zero t => Zero (s && negb t)
  | Zero _, Finite y => Finite (Qopp y)
  | Finite x, Zero _ => Finite x
  | Finite x, Finite y => round (x - y)
  end.

(** [a * b] *)
Definition mul (a b : number) : number :=
  match a, b with
  | NaN, _ | _, NaN => NaN
  | Infinity s, Infinity t => Infinity (xorb s t)
  | Infinity _, Zero _ | Zero _, Infinity _ => NaN
  | Infinity s, Finite y => Infinity (xorb s (negative y))
  | Finite x, Infinity t => Infinity (xorb (negative x) t)
  | Zero s, Zero t => Zero (xorb s t)
  | Zero s, Finite y => Zero (xorb s (negative y))
  | Finite x, Zero t => Zero (xorb (negative x) t)
  | Finite x, Finite y => round (x * y)
  end.

(** [a / b] *)
Definition div (a b : number) : number :=
  match a, b with
  | NaN, _ | _, NaN => NaN
  | Infinity _, Infinity _ => NaN
  | Zero _, Zero _ => NaN
  | Infinity s, Zero t => Infinity (xorb s t)
  | Infinity s, Finite y => Infinity (xorb s (negative y))
  | Zero s, Infinity t => Zero (xorb s t)
  | Finite x, Infinity t => Zero (xorb (negative x) t)
  | Zero s, Finite y => Zero (xorb s (negative y))
  | Finite x, Zero t => Infinity (xorb (negative x) t)
  | Finite x, Finite y => round (x / y)
  end.

(** [Math.ceil(a)]: exact, the ceiling of a double is a double; a value in
    (-1, 0) gives [-0]. *)
Definition ceil (a : number) : number :=
  match a with
  | Finite x =>
      let c := Qceiling x in
      if c =? 0 then Zero true else Finite (inject_Z c)
  | _ => a
  end.

(** [Math.ceil(a / b)] *)
Definition ceil_div (a b : number) : number := ceil (div a b).

(** The value of a finite number, both zeros being 0. *)
Definition value_of (a : number) : Q :=
  match a with Finite x => x | _ => 0%Q end.

(** [a < b] *)
Definition lt (a b : number) : bool :=
  match a, b with
  | NaN, _ | _, NaN => false
  | Infinity s, Infinity t => s && negb t
  | Infinity s, _ => s
  | _, Infinity t => negb t
  | _, _ => negb (Qle_bool (value_of b) (value_of a))
  end.

(** [a > b] *)
Definition gt (a b : number) : bool := lt b a.

(** Truthiness, as tested by [if (v)] and [v || d]. *)
Class Truthy (A : Type) := truthy : A -> bool.

#[export] Instance number_truthy : Truthy number :=
  fun n => match n with
           | NaN => false
           | Zero _ => false
           | Infinity _ => true
           | Finite _ => true
           end.

#[export] Instance string_truthy : Truthy string :=
  fun s => match s with EmptyString => false | _ => true end.

(** An optional property: [None] is [undefined]. *)
#[export] Instance option_truthy {A} `{Truthy A} : Truthy (option A) :=
  fun o => match o with Some a => truthy a | None => false end.

(** [o || d] for an optional property [o]. *)
Definition or_else {A} `{Truthy A} (o : option A) (d : A) : A :=
  match o with
  | Some a => if truthy a then a else d
  | None => d
  end.

(** [o ?? d] *)
Definition nullish {A} (o : option A) (d : A) : A :=
  match o with Some a => a | None => d end.

(** A destructuring default, [const { x = d } = obj]: it applies when the
    property is [undefined] and only then. *)
Definition default_to {A} (o : option A) (d : A) : A :=
  match o with Some a => a | None => d end.

(** [if (o) { body }], where the body updates a mutable object [s]. *)
Definition when {A S} `{Truthy A} (o : option A) (body : A -> S -> S)
    (s : S) : S :=
  match o with
  | Some a => if truthy a then body a s else s
  | None => s
  end.

(** Optional chaining [o?.f] on an optional object. *)
Definition chain {A B} (o : option A) (f : A -> option B) : option B :=
  match o with Some a => f a | None => None end.

End JS.

Import JS.

Notation "o ?. f" := (JS.chain o f) (at level 20, left associativity).

(* ================================================================== *)
(** ** The types the class is generic over *)
(* ================================================================== *)

(** [BaseRepositoryService<T extends Document>] never inspects documents,
    filters, updates, sort specifications, populate objects, sessions or
    passthrough options: they are handed to the driver as they come. *)
Class Schema : Type := {
  IdType : Type;                     (* Types.ObjectId | string *)
  Doc : Type;                        (* T, a hydrated document *)
  FlattenMaps : Type;                (* FlattenMaps<T>, a lean object *)
  Partial : Type;                    (* Partial<T> *)
  FilterQuery : Type;                (* FilterQuery<T> *)
  match_all : FilterQuery;           (* the literal {} *)
  UpdateQuery : Type;                (* UpdateQuery<T> *)
  ProjectionObject : Type;           (* the object form of ProjectionType<T> *)
  SortOptions : Type;
  MongoosePopulateOptions : Type;
  MongooseQueryOptions : Type;
  ClientSession : Type
}.

(** Objects are truthy whatever they hold. *)
Definition object_truthy {A : Type} : Truthy A := fun _ => true.

#[export] Instance FilterQuery_truthy `{Schema} : Truthy FilterQuery :=
  object_truthy.
#[export] Instance SortOptions_truthy `{Schema} : Truthy SortOptions :=
  object_truthy.
#[export] Instance MongooseQueryOptions_truthy `{Schema}
  : Truthy MongooseQueryOptions := object_truthy.
#[export] Instance ClientSession_truthy `{Schema} : Truthy ClientSession :=
  object_truthy.

Section OptionTypes.
Context `{Schema}.

(** [ProjectionType<T>]: an object or a space-separated string. *)
Inductive ProjectionType : Type :=
| projection_object (o : ProjectionObject)
| projection_string (s : string).

(** [string | string[] | PopulateOptions | PopulateOptions[]] *)
Inductive PopulateArg : Type :=
| populate_path (s : string)
| populate_paths (l : list string)
| populate_options (o : MongoosePopulateOptions)
| populate_options_array (l : list MongoosePopulateOptions).

#[export] Instance ProjectionType_truthy : Truthy ProjectionType :=
  fun p => match p with
           | projection_object _ => true
           | projection_string s => truthy s
           end.

#[export] Instance PopulateArg_truthy : Truthy PopulateArg :=
  fun p => match p with
           | populate_path s => truthy s
           | _ => true
           end.
End OptionTypes.

Module PaginationOptions.
Record t : Type := { page : option number; limit : option number }.
#[global] Instance t_truthy : Truthy t := object_truthy.
End PaginationOptions.

Module FindOptions.
Section S.
Context `{Schema}.
Record t : Type := {
  filter : option FilterQuery;
  projection : option ProjectionType;
  sort : option SortOptions;
  pagination : option PaginationOptions.t;
  populate : option PopulateArg;
  options : option MongooseQueryOptions;
  session : option ClientSession
}.

(** [{ ...o, pagination: p }] *)
Definition with_pagination (o : option t) (p : PaginationOptions.t) : t :=
  {| filter := o ?. filter;
     projection := o ?. projection;
     sort := o ?. sort;
     pagination := Some p;
     populate := o ?. populate;
     options := o ?. options;
     session := o ?. session |}.
End S.
End FindOptions.

Module MutationOptions.
Section S.
Context `{Schema}.
Record t : Type := { session : option ClientSession }.
End S.
End MutationOptions.

Module UpdateOptions.
Section S.
Context `{Schema}.
Record t : Type := {
  session : option ClientSession;
  runValidators : option bool
}.
End S.
End UpdateOptions.

Module Meta.
Record t : Type := {
  total : number;
  page : number;
  limit : number;
  totalPages : number;
  hasNextPage : bool;
  hasPrevPage : bool
}.
End Meta.

Module PaginatedResult.
Record t (A : Type) : Type := { data : list A; meta : Meta.t }.
End PaginatedResult.

(* ================================================================== *)
(** ** The driver, as the class sees it *)
(* ================================================================== *)

(** Option literals the class passes to the driver. *)
Module SaveOptions.
Section S.
Context `{Schema}.
Record t : Type := { session : ClientSession }.
End S.
End SaveOptions.

Module FindOneAndUpdateOptions.
Section S.
Context `{Schema}.
Record t : Type := {
  new : bool;
  runValidators : bool;
  session : option ClientSession
}.
End S.
End FindOneAndUpdateOptions.

Module UpdateManyOptions.
Section S.
Context `{Schema}.
Record t : Type := {
  runValidators : bool;
  session : option ClientSession
}.
End S.
End UpdateManyOptions.

Module FindOneAndDeleteOptions.
Section S.
Context `{Schema}.
Record t : Type := { session : option ClientSession }.
End S.
End FindOneAndDeleteOptions.

Module UpdateResult.
Record t : Type := { modifiedCount : number }.
End UpdateResult.

Module DeleteResult.
Record t : Type := { deletedCount : number }.
End DeleteResult.

(** Whether a query resolves to one document (or [null]) or to an array. *)
Inductive Card : Type := one | many.

Module Query.
Section S.
Context `{Schema}.

(** The model method a read query starts from. *)
Inductive source : Card -> Type :=
| findById (id : IdType) : source one
| findOne (f : FilterQuery) : source one
| find (f : FilterQuery) : source many.

(** A builder method called on a query. *)
Inductive method : Type :=
| select (p : ProjectionType)
| sort (s : SortOptions)
| populate (p : PopulateArg)
| session (s : ClientSession)
| setOptions (o : MongooseQueryOptions)
| skip (n : number)
| limit (n : number).

(** A query is a mutable builder: what the driver will run is fixed by
    the model method it came from and by the builder methods called on
    it since, in call order. *)
Record t (c : Card) : Type := {
  from : source c;
  calls : list method
}.

Definition start {c} (s : source c) : t c :=
  {| from := s; calls := [] |}.

(** [q.m(...)]: the builder records the call and returns itself. *)
Definition call {c} (q : t c) (m : method) : t c :=
  {| from := from q; calls := calls q ++ [m] |}.
End S.
End Query.

Module Model.
Section DriverCalls.
Context `{Schema}.

Definition hydrated (c : Card) : Type :=
  match c with one => option Doc | many => list Doc end.

Definition flattened (c : Card) : Type :=
  match c with one => option FlattenMaps | many => list FlattenMaps end.

(** The asynchronous driver calls the class awaits, indexed by the type of
    what they resolve to.  [None] in a [session] position is [null] (or
    [undefined] inside an option literal). *)
Inductive DriverCall : Type -> Type :=
| exec {c} (q : Query.t c) : DriverCall (hydrated c)
| lean_exec {c} (q : Query.t c) : DriverCall (flattened c)
| save (data : Partial) (o : option SaveOptions.t) : DriverCall Doc
| insertMany (data : list Partial) (o : option SaveOptions.t)
  : DriverCall (list Doc)
| findByIdAndUpdate (id : IdType) (u : UpdateQuery)
    (o : FindOneAndUpdateOptions.t) : DriverCall (option Doc)
| findOneAndUpdate (f : FilterQuery) (u : UpdateQuery)
    (o : FindOneAndUpdateOptions.t) : DriverCall (option Doc)
| updateMany (f : FilterQuery) (u : UpdateQuery)
    (o : UpdateManyOptions.t) : DriverCall UpdateResult.t
| findByIdAndDelete (id : IdType) (o : FindOneAndDeleteOptions.t)
  : DriverCall (option Doc)
| findOneAndDelete (f : FilterQuery) (o : FindOneAndDeleteOptions.t)
  : DriverCall (option Doc)
| deleteMany (f : FilterQuery) (s : option ClientSession)
  : DriverCall DeleteResult.t
| countDocuments (f : FilterQuery) (s : option ClientSession)
  : DriverCall number
| exists_ (f : FilterQuery) (s : option ClientSession)
  : DriverCall (option IdType).
End DriverCalls.
End Model.

Import Model.

(* ================================================================== *)
(** ** Asynchronous programs *)
(* ================================================================== *)

Section Promises.
Context `{Schema}.

(** An [async] body: it resolves, awaits one driver call, or awaits
    [Promise.all] of two promises that were both started before either is
    awaited. *)
Inductive Promise (R : Type) : Type :=
| resolve (r : R)
| await {X : Type} (c : DriverCall X) (k : X -> Promise R)
| all {A B : Type} (p1 : Promise A) (p2 : Promise B)
      (k : A * B -> Promise R).

Fixpoint bind {A B} (p : Promise A) (f : A -> Promise B) : Promise B :=
  match p with
  | resolve r => f r
  | await c k => await c (fun x => bind (k x) f)
  | all p1 p2 k => all p1 p2 (fun ab => bind (k ab) f)
  end.

(** [return call.exec()] *)
Definition perform {X} (c : DriverCall X) : Promise X :=
  await c (fun x => resolve x).
End Promises.

Arguments resolve {_ R} r.

Notation "x <- p ;; q" := (bind p (fun x => q))
  (at level 61, p at next level, right associativity).
Notation "' pat <- p ;; q" := (bind p (fun x => match x with pat => q end))
  (at level 61, pat pattern, p at next level, right associativity).

(* ================================================================== *)
(** ** The class *)
(* ================================================================== *)

Module BaseRepositoryService.
Section Methods.
Context `{Schema}.

(* ---------------- private helpers ---------------- *)

Definition applyPopulate {c} (query : Query.t c) (populate : PopulateArg)
  : Query.t c :=
  match populate with
  | populate_path _ =>                       (* typeof populate === 'string' *)
      Query.call query (Query.populate populate)
  | populate_paths _ | populate_options_array _ =>     (* Array.isArray *)
      Query.call query (Query.populate populate)
  | populate_options _ =>
      Query.call query (Query.populate populate)
  end.

Definition applyQueryOptions {c} (query : Query.t c)
    (options : option FindOptions.t) : Query.t c :=
  match options with
  | None => query                               (* if (!options) return *)
  | Some options =>
      let q := query in
      let q := when (FindOptions.projection options)
                 (fun p q => Query.call q (Query.select p)) q in
      let q := when (FindOptions.sort options)
                 (fun s q => Query.call q (Query.sort s)) q in
      let q := when (FindOptions.populate options)
                 (fun p q => applyPopulate q p) q in
      let q := when (FindOptions.session options)
                 (fun s q => Query.call q (Query.session s)) q in
      let q := when (FindOptions.options options)
                 (fun o q => Query.call q (Query.setOptions o)) q in
      q
  end.

(* ---------------- create ---------------- *)

Definition create (data : Partial) (options : option MutationOptions.t)
  : Promise Doc :=
  match options ?. MutationOptions.session with
  | Some s => perform (save data (Some {| SaveOptions.session := s |}))
  | None => perform (save data None)
  end.

Definition createMany (data : list Partial)
    (options : option MutationOptions.t) : Promise (list Doc) :=
  docs <- match options ?. MutationOptions.session with
          | Some s =>
              perform (insertMany data
                         (Some {| SaveOptions.session := s |}))
          | None => perform (insertMany data None)
          end ;;
  resolve docs.

(* ---------------- utility ---------------- *)

(** [.session(options?.session ?? null)]: an absent session is passed
    as [null], which is [None] in the call. *)
Definition count (filter : option FilterQuery)
    (options : option MutationOptions.t) : Promise number :=
  perform (countDocuments (or_else filter match_all)
             (options ?. MutationOptions.session)).

Definition exists_ (filter : FilterQuery)
    (options : option MutationOptions.t) : Promise bool :=
  result <- perform (Model.exists_ filter
                       (options ?. MutationOptions.session)) ;;
  resolve (match result with Some _ => true | None => false end).

(* ---------------- read ---------------- *)

(** The option type of [findById] omits [filter] and [pagination], that
    of [findOne] omits [pagination]; neither method reads them. *)
Definition findById (id : IdType) (options : option FindOptions.t)
  : Promise (option Doc) :=
  let query := Query.start (Query.findById id) in
  let query := applyQueryOptions query options in
  perform (exec query).

Definition findOne (options : option FindOptions.t)
  : Promise (option Doc) :=
  let query :=
    Query.start
      (Query.findOne (or_else (options ?. FindOptions.filter) match_all))
  in
  let query := applyQueryOptions query options in
  perform (exec query).

Definition findMany (options : option FindOptions.t)
  : Promise (list Doc) :=
  let query :=
    Query.start
      (Query.find (or_else (options ?. FindOptions.filter) match_all))
  in
  let query := applyQueryOptions query options in
  let query :=
    when (options ?. FindOptions.pagination)
      (fun pagination query =>
         let page :=
           default_to (PaginationOptions.page pagination) (Int 1) in
         let limit :=
           default_to (PaginationOptions.limit pagination) (Int 10) in
         let skip := mul (sub page (Int 1)) limit in
         Query.call (Query.call query (Query.skip skip))
           (Query.limit limit))
      query in
  perform (exec query).

Definition findWithPagination (options : option FindOptions.t)
  : Promise (PaginatedResult.t Doc) :=
  let filter := or_else (options ?. FindOptions.filter) match_all in
  let page :=
    or_else (options ?. FindOptions.pagination ?. PaginationOptions.page)
            (Int 1) in
  let limit :=
    or_else (options ?. FindOptions.pagination ?. PaginationOptions.limit)
            (Int 10) in
  all (findMany
         (Some (FindOptions.with_pagination options
                  {| PaginationOptions.page := Some page;
                     PaginationOptions.limit := Some limit |})))
      (count (Some filter)
         (Some {| MutationOptions.session :=
                    options ?. FindOptions.session |}))
      (fun '(data, total) =>
         let totalPages := ceil_div total limit in
         resolve
           {| PaginatedResult.data := data;
              PaginatedResult.meta :=
                {| Meta.total := total;
                   Meta.page := page;
                   Meta.limit := limit;
                   Meta.totalPages := totalPages;
                   Meta.hasNextPage := lt page totalPages;
                   Meta.hasPrevPage := gt page (Int 1) |} |}).

(* ---------------- read, lean ---------------- *)

Definition findByIdLean (id : IdType) (options : option FindOptions.t)
  : Promise (option FlattenMaps) :=
  let query := Query.start (Query.findById id) in
  let query := applyQueryOptions query options in
  result <- perform (lean_exec query) ;;
  resolve result.

Definition findOneLean (options : option FindOptions.t)
  : Promise (option FlattenMaps) :=
  let query :=
    Query.start
      (Query.findOne (or_else (options ?. FindOptions.filter) match_all))
  in
  let query := applyQueryOptions query options in
  result <- perform (lean_exec query) ;;
  resolve result.

Definition findManyLean (options : option FindOptions.t)
  : Promise (list FlattenMaps) :=
  let query :=
    Query.start
      (Query.find (or_else (options ?. FindOptions.filter) match_all))
  in
  let query := applyQueryOptions query options in
  let query :=
    when (options ?. FindOptions.pagination)
      (fun pagination query =>
         let page :=
           default_to (PaginationOptions.page pagination) (Int 1) in
         let limit :=
           default_to (PaginationOptions.limit pagination) (Int 10) in
         let skip := mul (sub page (Int 1)) limit in
         Query.call (Query.call query (Query.skip skip))
           (Query.limit limit))
      query in
  result <- perform (lean_exec query) ;;
  resolve result.

Definition findWithPaginationLean (options : option FindOptions.t)
  : Promise (PaginatedResult.t FlattenMaps) :=
  let filter := or_else (options ?. FindOptions.filter) match_all in
  let page :=
    or_else (options ?. FindOptions.pagination ?. PaginationOptions.page)
            (Int 1) in
  let limit :=
    or_else (options ?. FindOptions.pagination ?. PaginationOptions.limit)
            (Int 10) in
  all (findManyLean
         (Some (FindOptions.with_pagination options
                  {| PaginationOptions.page := Some page;
                     PaginationOptions.limit := Some limit |})))
      (count (Some filter)
         (Some {| MutationOptions.session :=
                    options ?. FindOptions.session |}))
      (fun '(data, total) =>
         let totalPages := ceil_div total limit in
         resolve
           {| PaginatedResult.data := data;
              PaginatedResult.meta :=
                {| Meta.total := total;
                   Meta.page := page;
                   Meta.limit := limit;
                   Meta.totalPages := totalPages;
                   Meta.hasNextPage := lt page totalPages;
                   Meta.hasPrevPage := gt page (Int 1) |} |}).

(* ---------------- update ---------------- *)

Definition updateById (id : IdType) (update : UpdateQuery)
    (options : option UpdateOptions.t) : Promise (option Doc) :=
  perform
    (findByIdAndUpdate id update
       {| FindOneAndUpdateOptions.new := true;
          FindOneAndUpdateOptions.runValidators :=
            nullish (options ?. UpdateOptions.runValidators) true;
          FindOneAndUpdateOptions.session :=
            options ?. UpdateOptions.session |}).

Definition updateOne (filter : FilterQuery) (update : UpdateQuery)
    (options : option UpdateOptions.t) : Promise (option Doc) :=
  perform
    (findOneAndUpdate filter update
       {| FindOneAndUpdateOptions.new := true;
          FindOneAndUpdateOptions.runValidators :=
            nullish (options ?. UpdateOptions.runValidators) true;
          FindOneAndUpdateOptions.session :=
            options ?. UpdateOptions.session |}).

Definition updateMany (filter : FilterQuery) (update : UpdateQuery)
    (options : option UpdateOptions.t) : Promise number :=
  result <- perform
              (Model.updateMany filter update
                 {| UpdateManyOptions.runValidators :=
                      nullish (options ?. UpdateOptions.runValidators)
                        true;
                    UpdateManyOptions.session :=
                      options ?. UpdateOptions.session |}) ;;
  resolve (UpdateResult.modifiedCount result).

(* ---------------- delete ---------------- *)

Definition deleteById (id : IdType) (options : option MutationOptions.t)
  : Promise (option Doc) :=
  perform
    (findByIdAndDelete id
       {| FindOneAndDeleteOptions.session :=
            options ?. MutationOptions.session |}).

Definition deleteOne (filter : FilterQuery)
    (options : option MutationOptions.t) : Promise (option Doc) :=
  perform
    (findOneAndDelete filter
       {| FindOneAndDeleteOptions.session :=
            options ?. MutationOptions.session |}).

Definition deleteMany (filter : FilterQuery)
    (options : option MutationOptions.t) : Promise number :=
  result <- perform (Model.deleteMany filter
                       (options ?. MutationOptions.session)) ;;
  resolve (DeleteResult.deletedCount result).
End Methods.
End BaseRepositoryService.

(* ================================================================== *)
(** ** Running a promise against a driver *)
(* ================================================================== *)

Inductive Result (E X : Type) : Type :=
| Ok (x : X)
| Err (e : E).
Arguments Ok {E X} x.
Arguments Err {E X} e.

Section Run.
Context `{Schema}.
Variables Store Error : Type.

(** A driver answers each call from the current store, with a value or a
    rejection, and leaves a new store. *)
Definition Driver : Type :=
  forall X : Type, DriverCall X -> Store -> Result Error X * Store.

Variable driver : Driver.

(** The two calls under [Promise.all] are in flight together; the driver
    serves them in one of the two orders, chosen by [left_first].  A
    rejection of either rejects the whole. *)
Variable left_first : bool.

Fixpoint run (R : Type) (p : Promise R) (st : Store) {struct p}
  : Result Error R * Store :=
  match p with
  | resolve r => (Ok r, st)
  | await c k =>
      match driver c st with
      | (Ok x, st') => run (k x) st'
      | (Err e, st') => (Err e, st')
      end
  | all p1 p2 k =>
      if left_first then
        let '(r1, st1) := run p1 st in
        let '(r2, st2) := run p2 st1 in
        match r1, r2 with
        | Ok a, Ok b => run (k (a, b)) st2
        | Err e, _ => (Err e, st2)
        | _, Err e => (Err e, st2)
        end
      else
        let '(r2, st2) := run p2 st in
        let '(r1, st1) := run p1 st2 in
        match r2, r1 with
        | Ok b, Ok a => run (k (a, b)) st1
        | Err e, _ => (Err e, st1)
        | _, Err e => (Err e, st1)
        end
  end.
End Run.

(* ================================================================== *)
(** ** A reference driver *)
(* ================================================================== *)

(** What the driver knows about a schema and the class does not. *)
Class Collection `{Schema} : Type := {
  has_id : IdType -> Doc -> bool;              (* doc._id equals id *)
  id_of : Doc -> IdType;
  matches : FilterQuery -> Doc -> bool;
  apply_update : UpdateQuery -> Doc -> Doc;
  valid : Doc -> bool;                         (* the schema validators *)
  same : Doc -> Doc -> bool;                   (* equal content *)
  flatten : Doc -> FlattenMaps;
  hydrate : list Doc -> Partial -> Doc;        (* new this.model(data) *)
  (* How the builder calls (projection, sort, populate, skip, limit,
     passthrough options) shape what a read returns from the matches. *)
  choose : list Query.method -> Doc -> list Doc -> Doc;
  arrange : list Query.method -> list Doc -> list Doc
}.

Module Reference.
Section S.
Context `{Collection}.

Inductive DriverError : Type := ValidationError.

(** The collection, in insertion order. *)
Definition Store : Type := list Doc.

Fixpoint update_first (p : Doc -> bool) (g : Doc -> Doc) (st : Store)
  : Store :=
  match st with
  | [] => []
  | d :: st' => if p d then g d :: st' else d :: update_first p g st'
  end.

Fixpoint remove_first (p : Doc -> bool) (st : Store) : Store :=
  match st with
  | [] => []
  | d :: st' => if p d then st' else d :: remove_first p st'
  end.

Definition first_of (calls : list Query.method) (ds : list Doc)
  : option Doc :=
  match ds with
  | [] => None
  | d :: rest => Some (choose calls d rest)
  end.

(** Modelled from the spec: the external driver's read primitives, which
    are not part of the repository.  [findById] and [findOne] give the
    first matching entity or the not-found sentinel, [find] the sequence
    of matching entities. *)
Definition read {c} (q : Query.t c) (st : Store) : hydrated c :=
  match Query.from q in Query.source c return hydrated c with
  | Query.findById id =>
      first_of (Query.calls q) (List.filter (has_id id) st)
  | Query.findOne f =>
      first_of (Query.calls q) (List.filter (matches f) st)
  | Query.find f => arrange (Query.calls q) (List.filter (matches f) st)
  end.

Definition lean {c} : hydrated c -> flattened c :=
  match c return hydrated c -> flattened c with
  | one => option_map flatten
  | many => List.map flatten
  end.

(** Modelled from the spec: the external driver's find-and-update
    primitive.  No match gives the not-found sentinel and leaves the
    store alone; a match is updated in place unless validators run and
    reject the outcome; [new] selects the post-update document as the
    answer, the pre-update one otherwise. *)
Definition find_and_update (p : Doc -> bool) (u : UpdateQuery)
    (o : FindOneAndUpdateOptions.t) (st : Store)
  : Result DriverError (option Doc) * Store :=
  match List.find p st with
  | None => (Ok None, st)
  | Some d =>
      let d' := apply_update u d in
      if FindOneAndUpdateOptions.runValidators o && negb (valid d')
      then (Err ValidationError, st)
      else (Ok (Some (if FindOneAndUpdateOptions.new o then d' else d)),
            update_first p (apply_update u) st)
  end.

(** Modelled from the spec: the external driver's find-and-delete
    primitive; the answer is the pre-deletion snapshot or the not-found
    sentinel. *)
Definition find_and_delete (p : Doc -> bool) (st : Store)
  : Result DriverError (option Doc) * Store :=
  match List.find p st with
  | None => (Ok None, st)
  | Some d => (Ok (Some d), remove_first p st)
  end.

Fixpoint hydrate_all (st : Store) (data : list Partial) : list Doc :=
  match data with
  | [] => []
  | x :: data' =>
      let d := hydrate st x in d :: hydrate_all (st ++ [d]) data'
  end.

Definition count_of (l : list Doc) : number := Int (Z.of_nat (List.length l)).

(** Modelled from the spec: the external driver (Mongoose and the
    database behind it), which the repository consumes and does not
    contain.  Sessions scope transactions whose lifecycle belongs to
    the caller; they do not change what a single call answers. *)
Definition driver : Driver Store DriverError :=
  fun X call st =>
    match call in DriverCall X return Result DriverError X * Store with
    | exec q => (Ok (read q st), st)
    | lean_exec q => (Ok (lean (read q st)), st)
    | save data _ =>
        let d := hydrate st data in
        if valid d then (Ok d, st ++ [d]) else (Err ValidationError, st)
    | insertMany data _ =>
        let ds := hydrate_all st data in
        if forallb valid ds then (Ok ds, st ++ ds)
        else (Err ValidationError, st)
    | findByIdAndUpdate id u o => find_and_update (has_id id) u o st
    | findOneAndUpdate f u o => find_and_update (matches f) u o st
    | Model.updateMany f u o =>
        let hit := List.filter (matches f) st in
        if UpdateManyOptions.runValidators o
           && negb (forallb (fun d => valid (apply_update u d)) hit)
        then (Err ValidationError, st)
        else
          (Ok {| UpdateResult.modifiedCount :=
                   count_of
                     (List.filter
                        (fun d => negb (same d (apply_update u d))) hit)
              |},
           List.map
             (fun d => if matches f d then apply_update u d else d) st)
    | findByIdAndDelete id _ => find_and_delete (has_id id) st
    | findOneAndDelete f _ => find_and_delete (matches f) st
    | Model.deleteMany f _ =>
        (Ok {| DeleteResult.deletedCount :=
                 count_of (List.filter (matches f) st) |},
         List.filter (fun d => negb (matches f d)) st)
    | countDocuments f _ => (Ok (count_of (List.filter (matches f) st)), st)
    | Model.exists_ f _ =>
        (Ok (option_map id_of (List.find (matches f) st)), st)
    end.

(** The reference driver in front of a collection too large to list: the
    reads and writes go to the listed documents, every count answers
    [total]. *)
Definition counting (total : number) : Driver Store DriverError :=
  fun X call st =>
    match call in DriverCall X return Result DriverError X * Store with
    | countDocuments _ _ => (Ok total, st)
    | c => driver c st
    end.
End S.
End Reference.

(* ================================================================== *)
(** ** Vocabulary of the specification *)
(* ================================================================== *)

(** A driver call with its result type hidden, for call logs. *)
Inductive Issued `{Schema} : Type :=
| issued {X : Type} (c : DriverCall X).

(** A driver that also records, in order, every call it serves. *)
Definition logging `{Schema} {Store Error : Type} (d : Driver Store Error)
  : Driver (Store * list Issued) Error :=
  fun X c s =>
    let '(r, st') := d X c (fst s) in (r, (st', snd s ++ [issued c])).

Section Vocabulary.
Context `{Schema}.

(** The position of each option step in the documented order
    projection, sort, populate, session, passthrough options. *)
Definition step_rank (m : Query.method) : nat :=
  match m with
  | Query.select _ => 0
  | Query.sort _ => 1
  | Query.populate _ => 2
  | Query.session _ => 3
  | Query.setOptions _ => 4
  | Query.skip _ => 5
  | Query.limit _ => 6
  end%nat.

Definition is_paging (m : Query.method) : bool :=
  match m with
  | Query.skip _ | Query.limit _ => true
  | _ => false
  end.

(** [q] after the builder calls [l], in order. *)
Definition extend {c} (q : Query.t c) (l : list Query.method) : Query.t c :=
  {| Query.from := Query.from q; Query.calls := Query.calls q ++ l |}.

(** One optional step: the builder call [m a] when the option is supplied
    and truthy, nothing otherwise. *)
Definition step {A} `{Truthy A} (o : option A) (m : A -> Query.method)
  : list Query.method :=
  match o with
  | Some a => if truthy a then [m a] else []
  | None => []
  end.

(** The option-application order as the specification words it:
    projection, then sort, then populate, then session, then the
    passthrough options. *)
Definition option_steps (options : option FindOptions.t)
  : list Query.method :=
  step (options ?. FindOptions.projection) Query.select
  ++ step (options ?. FindOptions.sort) Query.sort
  ++ step (options ?. FindOptions.populate) Query.populate
  ++ step (options ?. FindOptions.session) Query.session
  ++ step (options ?. FindOptions.options) Query.setOptions.

(** The paging of the specification: skip = (page-1)*limit, limit = limit. *)
Definition paging_steps (page limit : Z) : list Query.method :=
  [Query.skip (Int ((page - 1) * limit)); Query.limit (Int limit)].

(** The same on [number]s, as the JavaScript expression computes it. *)
Definition paging_calls (page limit : number) : list Query.method :=
  [Query.skip (mul (sub page (Int 1)) limit); Query.limit limit].

(** [options?.filter || {}] *)
Definition effective_filter (options : option FindOptions.t) : FilterQuery :=
  or_else (options ?. FindOptions.filter) match_all.

(** [options?.pagination?.page || 1] *)
Definition effective_page (options : option FindOptions.t) : number :=
  or_else (options ?. FindOptions.pagination ?. PaginationOptions.page)
          (Int 1).

(** [options?.pagination?.limit || 10] *)
Definition effective_limit (options : option FindOptions.t) : number :=
  or_else (options ?. FindOptions.pagination ?. PaginationOptions.limit)
          (Int 10).

(** The query of a many-document read: [find] over the effective filter,
    then the option steps, then the paging calls [paging]. *)
Definition find_query (options : option FindOptions.t)
    (paging : list Query.method) : Query.t many :=
  extend (Query.start (Query.find (effective_filter options)))
    (option_steps options ++ paging).

(** The count call over the effective filter with the caller's session. *)
Definition count_call (options : option FindOptions.t) : DriverCall number :=
  countDocuments (effective_filter options) (options ?. FindOptions.session).

(** The paginated result the specification derives from the page, the
    limit, the data and the total: totalPages = ceil(total/limit),
    hasNextPage = page < totalPages, hasPrevPage = page > 1. *)
Definition paginated {A : Type} (page limit : number) (data : list A)
    (total : number) : PaginatedResult.t A :=
  {| PaginatedResult.data := data;
     PaginatedResult.meta :=
       {| Meta.total := total;
          Meta.page := page;
          Meta.limit := limit;
          Meta.totalPages := ceil_div total limit;
          Meta.hasNextPage := lt page (ceil_div total limit);
          Meta.hasPrevPage := gt page (Int 1) |} |}.

(** The data fetch of a paginated read: the many-document query with the
    effective page and limit. *)
Definition fetch_call (options : option FindOptions.t)
  : DriverCall (list Doc) :=
  exec (find_query options
          (paging_calls (effective_page options) (effective_limit options))).

Definition lean_fetch_call (options : option FindOptions.t)
  : DriverCall (list FlattenMaps) :=
  lean_exec (find_query options
               (paging_calls (effective_page options)
                  (effective_limit options))).

(** What the driver answers the count query of a paginated read started
    from [st] beside the data fetch [fetch]: the count is served from
    [st] when it comes first, from the store the fetch leaves otherwise. *)
Definition counted {Store Error : Type} (d : Driver Store Error)
    (left_first : bool) {X : Type} (fetch : DriverCall X)
    (options : option FindOptions.t) (st : Store) : Result Error number :=
  fst (d _ (count_call options)
         (if left_first then snd (d _ fetch st) else st)).

(** [m] is the meta of a paginated read, of either variant, that was run
    from [st], returned, and had its count query answered [total]. *)
Definition returns_meta {Store Error : Type} (d : Driver Store Error)
    (left_first : bool) (options : option FindOptions.t) (st : Store)
    (total : number) (m : Meta.t) : Prop :=
  (exists r st',
      run d left_first (BaseRepositoryService.findWithPagination options) st
        = (Ok r, st')
      /\ counted d left_first (fetch_call options) options st = Ok total
      /\ PaginatedResult.meta r = m)
  \/ (exists r st',
         run d left_first
           (BaseRepositoryService.findWithPaginationLean options) st
           = (Ok r, st')
         /\ counted d left_first (lean_fetch_call options) options st
            = Ok total
         /\ PaginatedResult.meta r = m).

(** The driver calls a promise makes when run from [st], in the order the
    driver serves them. *)
Definition calls_of {Store Error : Type} (d : Driver Store Error)
    (left_first : bool) {R : Type} (p : Promise R) (st : Store)
  : list Issued :=
  snd (snd (run (logging d) left_first p (st, []))).

(** The builder calls made on the query a promise starts by executing,
    none when it starts otherwise. *)
Definition executed {R : Type} (p : Promise R) : list Query.method :=
  match p with
  | await c _ =>
      match c with
      | exec q => Query.calls q
      | lean_exec q => Query.calls q
      | _ => []
      end
  | _ => []
  end.
End Vocabulary.

(* ================================================================== *)
(** ** A concrete schema: the users of the package's README *)
(* ================================================================== *)

Module Users.

Record User : Type := { _id : nat; name : string; age : Z }.

Inductive Filter : Type :=
| everyone                       (* {} *)
| named (n : string)             (* { name: n } *)
| older_than (a : Z).            (* { age: { $gt: a } } *)

Inductive Update : Type :=
| set_name (n : string)          (* { $set: { name: n } } *)
| inc_age (k : Z).               (* { $inc: { age: k } } *)

Definition user_matches (f : Filter) (u : User) : bool :=
  match f with
  | everyone => true
  | named n => String.eqb n (name u)
  | older_than a => a <? age u
  end.

Definition user_update (up : Update) (u : User) : User :=
  match up with
  | set_name n => {| _id := _id u; name := n; age := age u |}
  | inc_age k => {| _id := _id u; name := name u; age := age u + k |}
  end.

(** [name] is required: the empty name is rejected. *)
Definition user_valid (u : User) : bool :=
  negb (String.eqb (name u) EmptyString).

Definition user_same (u v : User) : bool :=
  Nat.eqb (_id u) (_id v) && String.eqb (name u) (name v)
  && (age u =? age v).

#[local] Instance schema : Schema := {|
  IdType := nat;
  Doc := User;
  FlattenMaps := nat * string * Z;
  Partial := string * Z;
  FilterQuery := Filter;
  match_all := everyone;
  UpdateQuery := Update;
  ProjectionObject := unit;
  SortOptions := unit;
  MongoosePopulateOptions := unit;
  MongooseQueryOptions := unit;
  ClientSession := nat
|}.

(** The count a skip or limit argument stands for, when it is a whole
    number (a negative one counts as 0). *)
Definition whole (n : number) : option nat :=
  match n with
  | Zero _ => Some 0%nat
  | Finite q =>
      if Pos.eqb (Qden q) 1 then Some (Z.to_nat (Qnum q)) else None
  | _ => None
  end.

(** A skip-based paging of the matches; the other builder calls leave the
    documents as they are. *)
Fixpoint page_of (calls : list Query.method) (ds : list User)
  : list User :=
  match calls with
  | [] => ds
  | Query.skip n :: calls' =>
      page_of calls' match whole n with
                     | Some k => skipn k ds
                     | None => ds
                     end
  | Query.limit n :: calls' =>
      page_of calls' match whole n with
                     | Some k => firstn k ds
                     | None => ds
                     end
  | _ :: calls' => page_of calls' ds
  end.

#[local] Instance collection : Collection := {|
  has_id := fun (i : IdType) (u : Doc) => Nat.eqb i (_id u);
  id_of := fun u : Doc => _id u;
  matches := user_matches;
  apply_update := user_update;
  valid := user_valid;
  same := user_same;
  flatten := fun u : Doc => (_id u, name u, age u);
  hydrate := fun (st : list Doc) (p : Partial) =>
               {| _id := List.length st; name := fst p; age := snd p |};
  choose := fun _ d _ => d;
  arrange := page_of
|}.

Definition user (i : nat) : User :=
  {| _id := i; name := "A"; age := 30 |}.

(** Twenty-five users, ids 0 to 24. *)
Definition twenty_five : list User := List.map user (seq 0 25).

(** [{ pagination: { page, limit } }] *)
Definition paged (page limit : option number) : FindOptions.t :=
  {| FindOptions.filter := None;
     FindOptions.projection := None;
     FindOptions.sort := None;
     FindOptions.pagination :=
       Some {| PaginationOptions.page := page;
               PaginationOptions.limit := limit |};
     FindOptions.populate := None;
     FindOptions.options := None;
     FindOptions.session := None |}.


(** The id of the [n]-th user. *)
Definition id (n : nat) : IdType := n.

(** [{ filter: f }] *)
Definition filtered (f : Filter) : FindOptions.t :=
  {| FindOptions.filter := Some f;
     FindOptions.projection := None;
     FindOptions.sort := None;
     FindOptions.pagination := None;
     FindOptions.populate := None;
     FindOptions.options := None;
     FindOptions.session := None |}.

End Users.

(* ================================================================== *)
(** ** Vocabulary for sessions and single calls *)
(* ================================================================== *)

Section SessionVocabulary.
Context `{Schema}.

(** The session a query is bound to by the builder calls made on it: that
    of the last [session] call, none when there is no such call. *)
Fixpoint bound_session (calls : list Query.method) : option ClientSession :=
  match calls with
  | [] => None
  | Query.session s :: rest =>
      match bound_session rest with
      | Some s' => Some s'
      | None => Some s
      end
  | _ :: rest => bound_session rest
  end.

(** The session a driver call carries, [None] when it carries none (or
    [null]). *)
Definition session_of {X : Type} (c : DriverCall X) : option ClientSession :=
  match c with
  | exec q => bound_session (Query.calls q)
  | lean_exec q => bound_session (Query.calls q)
  | save _ o => option_map SaveOptions.session o
  | insertMany _ o => option_map SaveOptions.session o
  | findByIdAndUpdate _ _ o => FindOneAndUpdateOptions.session o
  | findOneAndUpdate _ _ o => FindOneAndUpdateOptions.session o
  | Model.updateMany _ _ o => UpdateManyOptions.session o
  | findByIdAndDelete _ o => FindOneAndDeleteOptions.session o
  | findOneAndDelete _ o => FindOneAndDeleteOptions.session o
  | Model.deleteMany _ s => s
  | countDocuments _ s => s
  | Model.exists_ _ s => s
  end.

Definition issued_session (i : Issued) : option ClientSession :=
  match i with issued c => session_of c end.

(** [p] is one driver call [c] followed by the pure step [g]: whatever the
    driver, [c] is the only call made, an answer [x] resolves to [g x] and
    a rejection is passed on as it is. *)
Definition one_call {X R : Type} (p : Promise R) (c : DriverCall X)
    (g : X -> R) : Prop :=
  forall (Store Error : Type) (d : Driver Store Error) (sched : bool)
         (st : Store),
    calls_of d sched p st = [issued c]
    /\ run d sched p st =
       match d X c st with
       | (Ok x, st') => (Ok (g x), st')
       | (Err e, st') => (Err e, st')
       end.

(** [result !== null] *)
Definition not_null {A : Type} (o : option A) : bool :=
  match o with Some _ => true | None => false end.
End SessionVocabulary.

(* ================================================================== *)
(** ** Arithmetic of doubles on integers *)
(* ================================================================== *)

Lemma scaled_spec a b e :
  scaled a b e = (Zpos a * 2 ^ Z.max 0 (- e), Zpos b * 2 ^ Z.max 0 e).
Proof.
  unfold scaled. destruct (Z.leb_spec 0 e).
  - rewrite (Z.max_l 0 (- e)), (Z.max_r 0 e) by lia. simpl (2 ^ 0).
    now rewrite Z.mul_1_r.
  - rewrite (Z.max_r 0 (- e)), (Z.max_l 0 e) by lia. simpl (2 ^ 0).
    now rewrite Z.mul_1_r.
Qed.

Lemma up_pos e : 0 < up e.
Proof. unfold up. apply Z.pow_pos_nonneg; lia. Qed.

Lemma up_succ e : up (e + 1) * up (- e) = 2 * up e * up (- (e + 1)).
Proof.
  unfold up. destruct (Z.le_gt_cases 0 e).
  - rewrite (Z.max_r 0 (e + 1)), (Z.max_l 0 (- e)), (Z.max_r 0 e),
      (Z.max_l 0 (- (e + 1))) by lia.
    rewrite Z.pow_add_r by lia.
    change (2 ^ 1) with 2. change (2 ^ 0) with 1. ring.
  - rewrite (Z.max_l 0 (e + 1)), (Z.max_r 0 (- e)), (Z.max_l 0 e),
      (Z.max_r 0 (- (e + 1))) by lia.
    replace (- e) with (- (e + 1) + 1) by lia.
    rewrite Z.pow_add_r by lia.
    change (2 ^ 1) with 2. change (2 ^ 0) with 1. ring.
Qed.

(** [ilog2 a b] is the binary exponent of [a/b]:
    [2^k <= a/b < 2^(k+1)]. *)
Lemma ilog2_spec a b :
  Zpos b * up (ilog2 a b) <= Zpos a * up (- ilog2 a b)
  /\ Zpos a * up (- ilog2 a b) < 2 * (Zpos b * up (ilog2 a b)).
Proof.
  unfold ilog2.
  set (k := Z.log2 (Zpos a) - Z.log2 (Zpos b)).
  rewrite scaled_spec. fold (up (- k)) (up k).
  pose proof (Z.log2_spec (Zpos a) ltac:(lia)) as [A1 A2].
  pose proof (Z.log2_spec (Zpos b) ltac:(lia)) as [B1 B2].
  pose proof (Z.log2_nonneg (Zpos a)) as La.
  pose proof (Z.log2_nonneg (Zpos b)) as Lb.
  set (la := Z.log2 (Zpos a)) in *. set (lb := Z.log2 (Zpos b)) in *.
  rewrite Z.pow_succ_r in A2, B2 by lia.
  assert (Pa : 0 < 2 ^ la) by (apply Z.pow_pos_nonneg; lia).
  assert (Pb : 0 < 2 ^ lb) by (apply Z.pow_pos_nonneg; lia).
  assert (E : 2 ^ la * up (- k) = 2 ^ lb * up k).
  { unfold up. rewrite <- !Z.pow_add_r by lia. f_equal. lia. }
  pose proof (up_pos k) as Uk. pose proof (up_pos (- k)) as Unk.
  destruct (Z.leb_spec (Zpos b * up k) (Zpos a * up (- k))) as [L|L].
  - split; [exact L|]. nia.
  - (* the estimate is one too high: the exponent is k - 1 *)
    assert (E1 : up (k - 1) * 2 * up (- k) = up k * up (- (k - 1)) ).
    { pose proof (up_succ (k - 1)) as S.
      replace (k - 1 + 1) with k in S by lia. lia. }
    pose proof (up_pos (k - 1)) as Uk1.
    pose proof (up_pos (- (k - 1))) as Unk1.
    split.
    + (* lower bound, from b < 2 * 2^lb and 2^la <= a *)
      assert (Zpos b * up (k - 1) * (2 * up (- k))
              <= Zpos a * up (- (k - 1)) * (2 * up (- k))).
      { replace (Zpos b * up (k - 1) * (2 * up (- k)))
          with (Zpos b * (up k * up (- (k - 1))))
          by (rewrite <- E1; ring).
        assert (Zpos b * up k <= 2 * Zpos a * up (- k)) by nia.
        nia. }
      nia.
    + (* upper bound, from a * up (-k) < b * up k *)
      assert (Zpos a * up (- (k - 1)) * (up (- k))
              < 2 * (Zpos b * up (k - 1)) * up (- k)).
      { replace (2 * (Zpos b * up (k - 1)) * up (- k))
          with (Zpos b * (up k * up (- (k - 1))))
          by (rewrite <- E1; ring).
        nia. }
      nia.
Qed.

Lemma up_shift52 k :
  up (- (k - 52)) * up k = 2 ^ 52 * up (- k) * up (k - 52).
Proof.
  unfold up. rewrite <- !Z.pow_add_r by lia. f_equal. lia.
Qed.

Lemma scale52 a b (k := ilog2 a b) :
  2 ^ 52 * (Zpos b * up (k - 52)) <= Zpos a * up (- (k - 52))
  /\ Zpos a * up (- (k - 52)) < 2 ^ 53 * (Zpos b * up (k - 52)).
Proof.
  destruct (ilog2_spec a b) as [L U]. fold k in L, U.
  pose proof (up_shift52 k) as E.
  pose proof (up_pos k). pose proof (up_pos (- k)).
  pose proof (up_pos (k - 52)). pose proof (up_pos (- (k - 52))).
  change (2 ^ 53) with (2 * 2 ^ 52). change (2 ^ 52) with 4503599627370496 in *.
  split.
  - assert (4503599627370496 * (Zpos b * up (k - 52)) * up k
            <= Zpos a * up (- (k - 52)) * up k).
    { replace (Zpos a * up (- (k - 52)) * up k)
        with (Zpos a * (up (- (k - 52)) * up k)) by ring.
      rewrite E. nia. }
    nia.
  - assert (Zpos a * up (- (k - 52)) * up k
            < 2 * 4503599627370496 * (Zpos b * up (k - 52)) * up k).
    { replace (Zpos a * up (- (k - 52)) * up k)
        with (Zpos a * (up (- (k - 52)) * up k)) by ring.
      rewrite E. nia. }
    nia.
Qed.

Lemma ilog2_lower a b : Zpos b <= two53 -> -53 <= ilog2 a b.
Proof.
  intros B. destruct (ilog2_spec a b) as [_ U].
  destruct (Z.le_gt_cases (-53) (ilog2 a b)) as [|K]; [assumption|exfalso].
  set (k := ilog2 a b) in *.
  assert (up k = 1) as U1.
  { unfold up. rewrite Z.max_l by lia. reflexivity. }
  assert (2 ^ 54 <= up (- k)).
  { unfold up. rewrite Z.max_r by lia. apply Z.pow_le_mono_r; lia. }
  rewrite U1 in U. unfold two53 in B.
  change (2 ^ 54) with 18014398509481984 in *.
  nia.
Qed.

(** The nearest integer is within one half of the fraction. *)
Lemma nearest_even_close n d :
  0 < d -> - d <= 2 * (nearest_even n d * d - n) <= d.
Proof.
  intros D. unfold nearest_even.
  pose proof (Z.div_mod n d ltac:(lia)) as E.
  pose proof (Z.mod_pos_bound n d D) as B.
  destruct (Z.compare_spec (2 * (n mod d)) d) as [C|C|C];
    [destruct (Z.even (n / d))| |]; nia.
Qed.

Lemma nearest_even_exact j d : 0 < d -> nearest_even (j * d) d = j.
Proof.
  intros D. unfold nearest_even.
  rewrite Z.div_mul, Z.mod_mul by lia.
  destruct (Z.compare_spec (2 * 0) d); lia.
Qed.

Lemma ceiling_bounds (t l : Z) :
  0 < l -> (- ((- t) / l) - 1) * l < t <= - ((- t) / l) * l.
Proof.
  intros Hl.
  pose proof (Z.div_mod (- t) l ltac:(lia)) as E.
  pose proof (Z.mod_pos_bound (- t) l Hl) as B.
  nia.
Qed.

Lemma ceiling_unique (m P c : Z) :
  0 < P -> (c - 1) * P < m <= c * P -> - ((- m) / P) = c.
Proof.
  intros HP B. pose proof (ceiling_bounds m HP) as C. nia.
Qed.

Lemma Qnum_Qred_pos n d : 0 < n -> 0 < Qnum (Qred (n # d)).
Proof.
  intros N.
  assert (0 < Qred (n # d))%Q as L.
  { rewrite Qred_correct. unfold Qlt. simpl. lia. }
  unfold Qlt in L. cbn [Qnum Qden] in L.
  change (QDen ?x) with (Zpos (Qden x)) in L. lia.
Qed.

(** Rounding a quotient of two integers up to 2^53 does not move it across
    an integer: the ceiling of the rounded quotient is the ceiling of the
    quotient. *)
Lemma ceil_round_quotient (a b : positive) :
  Zpos a <= two53 -> Zpos b <= two53 ->
  exists v, round_magnitude a b = Mag v
            /\ Qceiling v = - ((- Zpos a) / Zpos b)
            /\ 0 < Qnum v.
Proof.
  intros A B. unfold two53 in *.
  pose proof (ilog2_lower a B) as K.
  destruct (scale52 a b) as [S1 S2].
  pose proof (ceiling_bounds (Zpos a) (l := Zpos b) ltac:(lia)) as C.
  unfold round_magnitude. rewrite scaled_spec.
  set (k := ilog2 a b) in *.
  rewrite (Z.max_l (k - 52) (-1074)) by lia.
  fold (up (- (k - 52))) (up (k - 52)).
  set (c := - ((- Zpos a) / Zpos b)) in *.
  change (2 ^ 52) with 4503599627370496 in *.
  change (2 ^ 53) with 9007199254740992 in *.
  destruct (Z.leb_spec 0 (k - 52)) as [E|E].
  - (* the quotient is at least 2^52 *)
    assert (U1 : up (- (k - 52)) = 1).
    { unfold up. rewrite Z.max_l by lia. reflexivity. }
    assert (U2 : up (k - 52) = 2 ^ (k - 52)).
    { unfold up. rewrite Z.max_r by lia. reflexivity. }
    rewrite U1, U2 in *. rewrite Z.mul_1_r in *.
    set (X := 2 ^ (k - 52)) in *.
    assert (PX : 0 < X) by (apply Z.pow_pos_nonneg; lia).
    pose proof (nearest_even_close (Zpos a) (d := Zpos b * X) ltac:(nia))
      as N.
    set (m := nearest_even (Zpos a) (Zpos b * X)) in *.
    assert (V : m * X = c /\ 0 < c).
    { assert (Zpos b * X <= 2) by nia.
      assert (Hb : Zpos b = 1 \/ Zpos b = 2) by nia.
      assert (HX : X = 1 \/ X = 2) by nia.
      clearbody c m X.
      destruct Hb as [Hb|Hb], HX as [HX|HX];
        rewrite Hb, HX in *; lia. }
    destruct V as [V Cpos].
    destruct (Z.eqb_spec m 0) as [M0|_]; [nia|].
    rewrite V.
    assert (c <= 9007199254740992) by nia.
    destruct (Z.leb_spec (2 ^ 1024) c) as [O|_].
    { assert (9007199254740992 < 2 ^ 1024) by reflexivity. lia. }
    exists (inject_Z c). split; [reflexivity|].
    split; [apply Qceiling_Z|simpl; lia].
  - (* the quotient is below 2^52 *)
    assert (U2 : up (k - 52) = 1).
    { unfold up. rewrite Z.max_l by lia. reflexivity. }
    assert (U1 : up (- (k - 52)) = 2 ^ (- (k - 52))).
    { unfold up. rewrite Z.max_r by lia. reflexivity. }
    rewrite U2 in *. rewrite Z.mul_1_r in *. rewrite <- U1.
    set (P := up (- (k - 52))) in *.
    assert (PP : 2 <= P).
    { rewrite U1. change 2 with (2 ^ 1) at 1.
      apply Z.pow_le_mono_r; lia. }
    pose proof (nearest_even_close (Zpos a * P) (d := Zpos b) ltac:(lia))
      as N.
    set (m := nearest_even (Zpos a * P) (Zpos b)) in *.
    assert (Bd : (c - 1) * P < m <= c * P).
    { split.
      - destruct (Z.lt_ge_cases ((c - 1) * P) m) as [|G]; [assumption|].
        exfalso.
        assert (Zpos b <= 2 * P) by nia.
        assert (T : Zpos a - (c - 1) * Zpos b >= 1) by lia.
        assert (Zpos a * P - m * Zpos b >= P) by nia.
        assert (Zpos b = 2 * P) by nia.
        assert (Zpos a = 9007199254740992) by nia.
        assert (Zpos a - (c - 1) * Zpos b = 1) by nia.
        set (Y := (c - 1) * P) in *.
        assert ((c - 1) * Zpos b = 2 * Y) by (unfold Y; nia).
        lia.
      - destruct (Z.le_gt_cases m (c * P)) as [|G]; [assumption|].
        exfalso. nia. }
    assert (0 < c) by nia.
    destruct (Z.eqb_spec m 0) as [M0|_]; [nia|].
    exists (Qred (m # Z.to_pos P)). split; [reflexivity|].
    split.
    + rewrite (Qceiling_comp _ _ (Qred_correct _)).
      unfold Qceiling, Qfloor, Qopp. simpl Qnum. simpl Qden.
      rewrite Z2Pos.id by lia. apply ceiling_unique; [lia|exact Bd].
    + apply Qnum_Qred_pos. nia.
Qed.

Lemma Qred_inject_Z z : Qred (inject_Z z) = inject_Z z.
Proof.
  unfold Qred, inject_Z.
  pose proof (Z.ggcd_gcd z 1) as G.
  pose proof (Z.ggcd_correct_divisors z 1) as D.
  destruct (Z.ggcd z 1) as [g [aa bb]]. simpl in *.
  rewrite Z.gcd_1_r in G. subst g. destruct D as [D1 D2].
  replace aa with z by lia. replace bb with 1 by lia. reflexivity.
Qed.

(** An integer up to 2^53 is a double: rounding leaves it as it is. *)
Lemma round_magnitude_integer (a : positive) :
  Zpos a <= two53 -> round_magnitude a 1 = Mag (inject_Z (Zpos a)).
Proof.
  intros A. unfold two53 in *.
  pose proof (@ilog2_lower a 1 ltac:(unfold two53; lia)) as K.
  destruct (scale52 a 1) as [S1 S2].
  unfold round_magnitude. rewrite scaled_spec.
  set (k := ilog2 a 1) in *.
  rewrite (Z.max_l (k - 52) (-1074)) by lia.
  fold (up (- (k - 52))) (up (k - 52)).
  change (2 ^ 52) with 4503599627370496 in *.
  change (2 ^ 53) with 9007199254740992 in *.
  destruct (Z.leb_spec 0 (k - 52)) as [E|E].
  - assert (U1 : up (- (k - 52)) = 1).
    { unfold up. rewrite Z.max_l by lia. reflexivity. }
    assert (U2 : up (k - 52) = 2 ^ (k - 52)).
    { unfold up. rewrite Z.max_r by lia. reflexivity. }
    rewrite U1, U2 in *. rewrite Z.mul_1_r in *. rewrite Z.mul_1_l in *.
    set (X := 2 ^ (k - 52)) in *.
    assert (PX : 0 < X) by (apply Z.pow_pos_nonneg; lia).
    pose proof (nearest_even_close (Zpos a) PX) as N.
    set (m := nearest_even (Zpos a) X) in *.
    assert (V : m * X = Zpos a).
    { assert (HX : X = 1 \/ X = 2) by nia.
      clearbody m X. destruct HX as [HX|HX]; rewrite HX in *; lia. }
    destruct (Z.eqb_spec m 0) as [M0|_]; [nia|].
    rewrite V.
    destruct (Z.leb_spec (2 ^ 1024) (Zpos a)) as [O|_].
    { assert (9007199254740992 < 2 ^ 1024) by reflexivity. lia. }
    reflexivity.
  - assert (U2 : up (k - 52) = 1).
    { unfold up. rewrite Z.max_l by lia. reflexivity. }
    assert (U1 : up (- (k - 52)) = 2 ^ (- (k - 52))).
    { unfold up. rewrite Z.max_r by lia. reflexivity. }
    rewrite U2 in *. rewrite <- U1.
    set (P := up (- (k - 52))) in *.
    assert (PP : 0 < P) by apply up_pos.
    change (Zpos 1 * 1) with 1.
    replace (Zpos a * P) with ((Zpos a * P) * 1) by ring.
    rewrite nearest_even_exact by lia.
    destruct (Z.eqb_spec (Zpos a * P) 0) as [M0|_]; [nia|].
    f_equal. rewrite <- Qred_inject_Z. apply Qred_complete.
    unfold Qeq, inject_Z. cbn [Qnum Qden].
    rewrite Z2Pos.id by lia. ring.
Qed.

Lemma round_magnitude_positive a b v :
  round_magnitude a b = Mag v -> 0 < Qnum v.
Proof.
  unfold round_magnitude. rewrite scaled_spec.
  set (e := Z.max (ilog2 a b - 52) (-1074)).
  fold (up (- e)) (up e).
  pose proof (up_pos e). pose proof (up_pos (- e)).
  pose proof (nearest_even_close (Zpos a * up (- e)) (d := Zpos b * up e)
                ltac:(nia)) as N.
  set (m := nearest_even (Zpos a * up (- e)) (Zpos b * up e)) in *.
  assert (0 <= m) by nia.
  destruct (Z.eqb_spec m 0) as [M0|M0]; [discriminate|].
  destruct (Z.leb_spec 0 e).
  - destruct (Z.leb_spec (2 ^ 1024) (m * 2 ^ e)); [discriminate|].
    intros [= <-]. simpl.
    assert (0 < 2 ^ e) by (apply Z.pow_pos_nonneg; lia). nia.
  - intros [= <-]. apply Qnum_Qred_pos. lia.
Qed.


Lemma round_ext (q : Q) (n : Z) :
  Qnum q = n -> Qden q = 1%positive -> round q = round (inject_Z n).
Proof. destruct q as [qn qd]. simpl. now intros -> ->. Qed.

Lemma round_Int (z : Z) : Z.abs z <= two53 -> round (inject_Z z) = Int z.
Proof.
  intros B. unfold round, Int. destruct z as [|a|a]; simpl.
  - reflexivity.
  - now rewrite round_magnitude_integer by lia.
  - now rewrite round_magnitude_integer by lia.
Qed.

Lemma neg_Int (z : Z) : neg (Int z) = if z =? 0 then Zero true else Int (- z).
Proof. unfold Int. destruct z; reflexivity. Qed.

(** Subtraction, multiplication, division under [Math.ceil] and
    comparison agree with the integers while the results stay within
    2^53. *)
Lemma sub_Int (a b : Z) :
  Z.abs (a - b) <= two53 -> sub (Int a) (Int b) = Int (a - b).
Proof.
  intros B. unfold Int at 1 2.
  destruct (Z.eqb_spec a 0) as [->|Na], (Z.eqb_spec b 0) as [->|Nb]; simpl.
  - reflexivity.
  - unfold Int. destruct b; try easy.
  - rewrite Z.sub_0_r. unfold Int. destruct a; easy.
  - rewrite <- round_Int by exact B. apply round_ext; simpl; [lia|reflexivity].
Qed.

Lemma mul_Int (a b : Z) :
  0 <= a -> 0 <= b -> a * b <= two53 -> mul (Int a) (Int b) = Int (a * b).
Proof.
  intros Ha Hb B. unfold Int at 1 2.
  destruct (Z.eqb_spec a 0) as [->|Na], (Z.eqb_spec b 0) as [->|Nb]; simpl.
  - reflexivity.
  - unfold negative. simpl. destruct (Z.ltb_spec b 0); [lia|reflexivity].
  - unfold negative. simpl. rewrite Z.mul_0_r.
    destruct (Z.ltb_spec a 0); [lia|reflexivity].
  - rewrite <- round_Int by nia. apply round_ext; simpl; [lia|reflexivity].
Qed.

Lemma ceil_div_Int (t l : Z) :
  0 <= t <= two53 -> 1 <= l <= two53 ->
  ceil_div (Int t) (Int l) = Int (- ((- t) / l)).
Proof.
  intros Ht Hl. unfold ceil_div, Int at 1 2.
  destruct (Z.eqb_spec l 0) as [->|_]; [lia|].
  destruct l as [|pl|pl]; try lia.
  destruct t as [|pt|pt]; try lia.
  - reflexivity.
  - simpl. unfold round. simpl. rewrite Pos.mul_1_r.
    destruct (@ceil_round_quotient pt pl) as (v & E & C & P); try lia.
    rewrite E. simpl. rewrite C.
    pose proof (@ceiling_bounds (Zpos pt) (Zpos pl) ltac:(lia)) as Bd.
    unfold Int. change (- Z.pos pt) with (Z.neg pt) in *.
    destruct (Z.eqb_spec (- (Z.neg pt / Zpos pl)) 0) as [Z0|_]; [|reflexivity].
    rewrite Z0 in Bd. lia.
Qed.

Lemma lt_Int (p q : Z) : lt (Int p) (Int q) = (p <? q).
Proof.
  unfold Int.
  destruct (Z.eqb_spec p 0) as [->|Np], (Z.eqb_spec q 0) as [->|Nq];
    unfold lt, value_of, Qle_bool; simpl; rewrite ?Z.mul_1_r;
    try reflexivity.
  - destruct (Z.leb_spec q 0), (Z.ltb_spec 0 q); simpl; try reflexivity; lia.
  - destruct (Z.leb_spec 0 p), (Z.ltb_spec p 0); simpl; try reflexivity; lia.
  - destruct (Z.leb_spec q p), (Z.ltb_spec p q); simpl; try reflexivity; lia.
Qed.

Lemma is_double_Finite (y : Q) :
  is_double (Finite y) = true -> round y = Finite y.
Proof.
  unfold is_double. destruct (round y) as [| |s|z]; try discriminate.
  intros E. apply andb_prop in E. destruct E as [E1 E2].
  apply Z.eqb_eq in E1. apply Pos.eqb_eq in E2.
  destruct y, z. simpl in *. now subst.
Qed.

Lemma round_opp (y : Q) :
  round y = Finite y -> round (Qopp y) = Finite (Qopp y).
Proof.
  destruct y as [[|a|a] d]; unfold round; simpl; try discriminate.
  - destruct (round_magnitude a d); simpl; try discriminate.
    now intros [= ->].
  - destruct (round_magnitude a d) as [| |[qn qd]]; simpl; try discriminate.
    unfold Qopp. simpl. intros [= E1 E2]. subst qd.
    assert (qn = Zpos a) as -> by lia. reflexivity.
Qed.

(** [(0 - 1) * x] is [-x], exactly, for every double [x]. *)
Lemma minus_one_times (x : number) :
  is_double x = true -> mul (sub (Int 0) (Int 1)) x = neg x.
Proof.
  intros D. destruct x as [|s|s|y]; try reflexivity.
  apply is_double_Finite in D. apply round_opp in D.
  cbn [sub Int Z.eqb mul neg]. rewrite <- D.
  destruct y as [[|a|a] d]; reflexivity.
Qed.

Lemma is_double_Int (z : Z) : Z.abs z <= two53 -> is_double (Int z) = true.
Proof.
  intros B. unfold Int. destruct (Z.eqb_spec z 0) as [->|N]; [reflexivity|].
  unfold is_double. rewrite round_Int by exact B. unfold Int.
  destruct (Z.eqb_spec z 0) as [->|_]; [easy|].
  simpl. now rewrite Z.eqb_refl.
Qed.

Lemma round_not_NaN (q : Q) : round q <> NaN.
Proof.
  unfold round.
  destruct (Qnum q) as [|a|a]; [easy| |];
    now destruct (round_magnitude a (Qden q)).
Qed.

Lemma ceil_not_NaN (a : number) : a <> NaN -> ceil a <> NaN.
Proof.
  destruct a as [|s|s|x]; try easy.
  intros _. simpl. now destruct (Qceiling x =? 0).
Qed.

(* ================================================================== *)
(** ** The option-application routine *)
(* ================================================================== *)

Section ApplyQueryOptions.
Context `{Schema}.
Import BaseRepositoryService.

Lemma extend_nil c (q : Query.t c) : extend q [] = q.
Proof. destruct q. unfold extend. simpl. now rewrite app_nil_r. Qed.

Lemma extend_extend c (q : Query.t c) l1 l2 :
  extend (extend q l1) l2 = extend q (l1 ++ l2).
Proof. unfold extend. simpl. now rewrite app_assoc. Qed.

Lemma call_extend c (q : Query.t c) m : Query.call q m = extend q [m].
Proof. reflexivity. Qed.

Lemma when_call c A `{Truthy A} (o : option A) (m : A -> Query.method)
    (q : Query.t c) :
  when o (fun a q => Query.call q (m a)) q = extend q (step o m).
Proof.
  destruct o as [a|]; simpl; [destruct (truthy a)|];
    simpl; now rewrite ?extend_nil.
Qed.

Lemma applyPopulate_call c (q : Query.t c) p :
  applyPopulate q p = Query.call q (Query.populate p).
Proof. now destruct p. Qed.

Lemma when_applyPopulate c (o : option PopulateArg) (q : Query.t c) :
  when o (fun p q => applyPopulate q p) q = extend q (step o Query.populate).
Proof.
  destruct o as [a|]; simpl; [destruct (truthy a)|];
    simpl; rewrite ?extend_nil, ?applyPopulate_call; reflexivity.
Qed.

Lemma applyQueryOptions_extend c (q : Query.t c) o :
  applyQueryOptions q o = extend q (option_steps o).
Proof.
  destruct o as [o|]; [|now rewrite extend_nil].
  unfold applyQueryOptions, option_steps. cbv zeta.
  rewrite (when_call _ Query.setOptions), (when_call _ Query.session),
    when_applyPopulate, (when_call _ Query.sort),
    (when_call _ Query.select).
  rewrite !extend_extend. simpl. rewrite <- ?app_assoc. reflexivity.
Qed.

Lemma in_step A `{Truthy A} (o : option A) (m : A -> Query.method) x :
  In x (step o m) <-> exists a, o = Some a /\ truthy a = true /\ x = m a.
Proof.
  unfold step. destruct o as [a|].
  - destruct (truthy a) eqn:T; simpl.
    + split.
      * intros [<-|[]]. now exists a.
      * intros (a' & [= <-] & _ & ->). now left.
    + split; [intros []|].
      intros (a' & [= <-] & T' & _). congruence.
  - simpl. split; [intros []|]. now intros (a & [=] & _).
Qed.

Lemma step_cases A `{Truthy A} (o : option A) (m : A -> Query.method) :
  step o m = [] \/ exists a, step o m = [m a].
Proof.
  unfold step. destruct o as [a|]; [destruct (truthy a)|]; eauto.
Qed.

Lemma option_steps_sorted o :
  StronglySorted (fun a b => (step_rank a < step_rank b)%nat)
    (option_steps o).
Proof.
  unfold option_steps.
  destruct (step_cases (o ?. FindOptions.projection) Query.select)
    as [-> | [? ->]];
  destruct (step_cases (o ?. FindOptions.sort) Query.sort)
    as [-> | [? ->]];
  destruct (step_cases (o ?. FindOptions.populate) Query.populate)
    as [-> | [? ->]];
  destruct (step_cases (o ?. FindOptions.session) Query.session)
    as [-> | [? ->]];
  destruct (step_cases (o ?. FindOptions.options) Query.setOptions)
    as [-> | [? ->]];
  simpl; repeat constructor; simpl; lia.
Qed.

Lemma option_steps_not_paging o m :
  In m (option_steps o) -> is_paging m = false.
Proof.
  unfold option_steps. rewrite !in_app_iff, !in_step.
  intros [(a & _ & _ & ->) | [(a & _ & _ & ->) | [(a & _ & _ & ->)
          | [(a & _ & _ & ->) | (a & _ & _ & ->)]]]]; reflexivity.
Qed.
End ApplyQueryOptions.

Section ReadQueries.
Context `{Schema}.
Import BaseRepositoryService.

(** Membership in [option_steps], one direction at a time. *)
Ltac from_steps :=
  let Hin := fresh "Hin" in
  let a := fresh "a" in
  let E := fresh "E" in
  let T := fresh "T" in
  let Q := fresh "Q" in
  unfold option_steps; rewrite !in_app_iff, !in_step;
  intros Hin;
  repeat (destruct Hin as [Hin|Hin]);
  destruct Hin as (a & E & T & Q);
  try discriminate Q; injection Q as ->; auto.

Ltac to_steps :=
  unfold option_steps; rewrite !in_app_iff, !in_step.

Lemma select_in_steps o p :
  In (Query.select p) (option_steps o) <->
  o ?. FindOptions.projection = Some p /\ truthy p = true.
Proof.
  split; [from_steps|]. intros [E T]. to_steps. left. eauto.
Qed.

Lemma sort_in_steps o s :
  In (Query.sort s) (option_steps o) <-> o ?. FindOptions.sort = Some s.
Proof.
  split; [from_steps|]. intros E. to_steps. right; left. exists s. auto.
Qed.

Lemma populate_in_steps o p :
  In (Query.populate p) (option_steps o) <->
  o ?. FindOptions.populate = Some p /\ truthy p = true.
Proof.
  split; [from_steps|]. intros [E T]. to_steps. right; right; left. eauto.
Qed.

Lemma session_in_steps o s :
  In (Query.session s) (option_steps o) <->
  o ?. FindOptions.session = Some s.
Proof.
  split; [from_steps|]. intros E. to_steps.
  right; right; right; left. exists s. auto.
Qed.

Lemma setOptions_in_steps o x :
  In (Query.setOptions x) (option_steps o) <->
  o ?. FindOptions.options = Some x.
Proof.
  split; [from_steps|]. intros E. to_steps.
  right; right; right; right. exists x. auto.
Qed.

Lemma findMany_query o :
  findMany o =
  perform (exec (find_query o
                   match o ?. FindOptions.pagination with
                   | Some pg =>
                       paging_calls
                         (default_to (PaginationOptions.page pg) (Int 1))
                         (default_to (PaginationOptions.limit pg) (Int 10))
                   | None => []
                   end)).
Proof.
  unfold findMany, find_query. cbv zeta. rewrite applyQueryOptions_extend.
  destruct (o ?. FindOptions.pagination) as [pg|]; simpl.
  - now rewrite !call_extend, !extend_extend.
  - now rewrite app_nil_r.
Qed.

Lemma findManyLean_query o :
  findManyLean o =
  perform (lean_exec (find_query o
                        match o ?. FindOptions.pagination with
                        | Some pg =>
                            paging_calls
                              (default_to (PaginationOptions.page pg)
                                 (Int 1))
                              (default_to (PaginationOptions.limit pg)
                                 (Int 10))
                        | None => []
                        end)).
Proof.
  unfold findManyLean, find_query. cbv zeta.
  rewrite applyQueryOptions_extend.
  destruct (o ?. FindOptions.pagination) as [pg|]; simpl.
  - now rewrite !call_extend, !extend_extend.
  - now rewrite app_nil_r.
Qed.

(** C8.  The option-application routine appends to the query, in this
    order and nothing else, the steps projection, sort, populate, session
    and passthrough options: the appended calls are strictly increasing in
    that order, each step is there exactly when its option is supplied
    (and truthy) and is skipped otherwise, and no paging call is among
    them.  Every read method builds its query through the routine, so all
    of them share that order; the lean ones execute the same query. *)
Theorem applyQueryOptions_fixed_order
    (c : Card) (q : Query.t c) (o : option FindOptions.t) (id : IdType) :
  applyQueryOptions q o = extend q (option_steps o)
  /\ StronglySorted (fun a b => (step_rank a < step_rank b)%nat)
       (option_steps o)
  /\ (forall p, In (Query.select p) (option_steps o) <->
                o ?. FindOptions.projection = Some p /\ truthy p = true)
  /\ (forall s, In (Query.sort s) (option_steps o) <->
                o ?. FindOptions.sort = Some s)
  /\ (forall p, In (Query.populate p) (option_steps o) <->
                o ?. FindOptions.populate = Some p /\ truthy p = true)
  /\ (forall s, In (Query.session s) (option_steps o) <->
                o ?. FindOptions.session = Some s)
  /\ (forall x, In (Query.setOptions x) (option_steps o) <->
                o ?. FindOptions.options = Some x)
  /\ (forall m, In m (option_steps o) -> is_paging m = false)
  /\ applyQueryOptions q None = q
  /\ findById id o =
       perform (exec (extend (Query.start (Query.findById id))
                        (option_steps o)))
  /\ findByIdLean id o =
       perform (lean_exec (extend (Query.start (Query.findById id))
                             (option_steps o)))
  /\ findOne o =
       perform (exec (extend
                        (Query.start (Query.findOne (effective_filter o)))
                        (option_steps o)))
  /\ findOneLean o =
       perform (lean_exec
                  (extend
                     (Query.start (Query.findOne (effective_filter o)))
                     (option_steps o)))
  /\ (exists paging,
        Forall (fun m => is_paging m = true) paging
        /\ findMany o = perform (exec (find_query o paging))
        /\ findManyLean o = perform (lean_exec (find_query o paging))).
Proof.
  split; [apply applyQueryOptions_extend|].
  split; [apply option_steps_sorted|].
  split; [intros p; apply select_in_steps|].
  split; [intros s; apply sort_in_steps|].
  split; [intros p; apply populate_in_steps|].
  split; [intros s; apply session_in_steps|].
  split; [intros x; apply setOptions_in_steps|].
  split; [apply option_steps_not_paging|].
  split; [reflexivity|].
  split; [unfold findById; now rewrite applyQueryOptions_extend|].
  split; [unfold findByIdLean; now rewrite applyQueryOptions_extend|].
  split; [unfold findOne; now rewrite applyQueryOptions_extend|].
  split; [unfold findOneLean; now rewrite applyQueryOptions_extend|].
  eexists. split; [|split; [apply findMany_query|apply findManyLean_query]].
  destruct (o ?. FindOptions.pagination); repeat constructor.
Qed.
End ReadQueries.

(* ================================================================== *)
(** ** Two calls under [Promise.all] *)
(* ================================================================== *)

Section PromiseAll.
Context `{Schema}.
Variables Store Error : Type.
Variable d : Driver Store Error.

Lemma run_perform (sched : bool) X (c : DriverCall X) (st : Store) :
  run d sched (perform c) st = d c st.
Proof. simpl. now destruct (d c st) as [[x|e] st']. Qed.

Lemma run_all2 (sched : bool) A B R (a : DriverCall A) (b : DriverCall B)
    (f : A -> B -> R) (st : Store) :
  run d sched (all (perform a) (perform b)
                 (fun '(x, y) => resolve (f x y))) st =
  if sched then
    match d a st with
    | (Ok x, st1) =>
        match d b st1 with
        | (Ok y, st2) => (Ok (f x y), st2)
        | (Err e, st2) => (Err e, st2)
        end
    | (Err e, st1) => (Err e, snd (d b st1))
    end
  else
    match d b st with
    | (Ok y, st1) =>
        match d a st1 with
        | (Ok x, st2) => (Ok (f x y), st2)
        | (Err e, st2) => (Err e, st2)
        end
    | (Err e, st1) => (Err e, snd (d a st1))
    end.
Proof.
  destruct sched; simpl.
  - destruct (d a st) as [[x|e] st1]; destruct (d b st1) as [[y|e'] st2];
      reflexivity.
  - destruct (d b st) as [[y|e] st1]; destruct (d a st1) as [[x|e'] st2];
      reflexivity.
Qed.

Lemma run_all2_Ok (sched : bool) A B R (a : DriverCall A)
    (b : DriverCall B) (f : A -> B -> R) (st st' : Store) (r : R) :
  run d sched (all (perform a) (perform b)
                 (fun '(x, y) => resolve (f x y))) st = (Ok r, st') ->
  exists x y, r = f x y.
Proof.
  rewrite run_all2. destruct sched.
  - destruct (d a st) as [[x|e] st1]; [|discriminate].
    destruct (d b st1) as [[y|e'] st2]; [|discriminate].
    intros [= <- <-]. eauto.
  - destruct (d b st) as [[y|e] st1]; [|discriminate].
    destruct (d a st1) as [[x|e'] st2]; [|discriminate].
    intros [= <- <-]. eauto.
Qed.

Lemma run_all2_counted (sched : bool) A B R (a : DriverCall A)
    (b : DriverCall B) (f : A -> B -> R) (st st' : Store) (r : R) :
  run d sched (all (perform a) (perform b)
                 (fun '(x, y) => resolve (f x y))) st = (Ok r, st') ->
  exists x y,
    r = f x y
    /\ fst (d b (if sched then snd (d a st) else st)) = Ok y.
Proof.
  rewrite run_all2. destruct sched.
  - destruct (d a st) as [[x|e] st1]; [|discriminate]. simpl.
    destruct (d b st1) as [[y|e'] st2]; [|discriminate].
    intros [= <- <-]. eauto.
  - destruct (d b st) as [[y|e] st1]; [|discriminate].
    destruct (d a st1) as [[x|e'] st2]; [|discriminate].
    intros [= <- <-]. eauto.
Qed.
End PromiseAll.

Section CallLog.
Context `{Schema}.
Variables Store Error : Type.
Variable d : Driver Store Error.

Lemma calls_of_all2 (sched : bool) A B R (a : DriverCall A)
    (b : DriverCall B) (f : A -> B -> R) (st : Store) :
  calls_of d sched (all (perform a) (perform b)
                      (fun '(x, y) => resolve (f x y))) st =
  if sched then [issued a; issued b] else [issued b; issued a].
Proof.
  unfold calls_of. rewrite run_all2. unfold logging. simpl.
  destruct sched.
  - destruct (d a st) as [[x|e] st1]; simpl;
      destruct (d b st1) as [[y|e'] st2]; reflexivity.
  - destruct (d b st) as [[y|e] st1]; simpl;
      destruct (d a st1) as [[x|e'] st2]; reflexivity.
Qed.
End CallLog.

(* ================================================================== *)
(** ** Paginated reads *)
(* ================================================================== *)

Section Pagination.
Context `{Schema}.
Import BaseRepositoryService.

Lemma option_steps_with_pagination o pg :
  option_steps (Some (FindOptions.with_pagination o pg)) = option_steps o.
Proof. destruct o; reflexivity. Qed.

Lemma effective_filter_with_pagination o pg :
  effective_filter (Some (FindOptions.with_pagination o pg))
  = effective_filter o.
Proof. destruct o; reflexivity. Qed.

Lemma find_query_with_pagination o pg paging :
  find_query (Some (FindOptions.with_pagination o pg)) paging
  = find_query o paging.
Proof.
  unfold find_query.
  now rewrite option_steps_with_pagination, effective_filter_with_pagination.
Qed.

Lemma findWithPagination_shape o :
  findWithPagination o =
  all (perform (exec (find_query o (paging_calls (effective_page o)
                                      (effective_limit o)))))
      (perform (count_call o))
      (fun '(data, total) =>
         resolve (paginated (effective_page o) (effective_limit o)
                    data total)).
Proof.
  unfold findWithPagination. cbv zeta.
  rewrite findMany_query, find_query_with_pagination.
  reflexivity.
Qed.

Lemma findWithPaginationLean_shape o :
  findWithPaginationLean o =
  all (perform (lean_exec (find_query o (paging_calls (effective_page o)
                                           (effective_limit o)))))
      (perform (count_call o))
      (fun '(data, total) =>
         resolve (paginated (effective_page o) (effective_limit o)
                    data total)).
Proof.
  unfold findWithPaginationLean. cbv zeta.
  rewrite findManyLean_query, find_query_with_pagination.
  reflexivity.
Qed.

Lemma effective_limit_truthy o : truthy (effective_limit o) = true.
Proof.
  unfold effective_limit, or_else.
  destruct (o ?. FindOptions.pagination ?. PaginationOptions.limit)
    as [l|]; [|reflexivity].
  destruct (truthy l) eqn:T; [exact T|reflexivity].
Qed.
End Pagination.

Section CountedReads.
Context `{Schema}.
Variables Store Error : Type.
Variable d : Driver Store Error.

(** The meta of a paginated read is computed from the effective page, the
    effective limit and the answer to its count query. *)
Lemma returns_meta_paginated sched o st total (m : Meta.t) :
  returns_meta d sched o st total m ->
  m = PaginatedResult.meta
        (paginated (A := unit) (effective_page o) (effective_limit o) []
           total).
Proof.
  intros [(r & st' & R & C & <-) | (r & st' & R & C & <-)].
  - rewrite findWithPagination_shape in R.
    apply run_all2_counted in R. destruct R as (x & y & -> & C').
    unfold counted, fetch_call in C.
    assert (E : Ok y = Ok total :> Result Error number)
      by exact (eq_trans (eq_sym C') C).
    now injection E as ->.
  - rewrite findWithPaginationLean_shape in R.
    apply run_all2_counted in R. destruct R as (x & y & -> & C').
    unfold counted, lean_fetch_call in C.
    assert (E : Ok y = Ok total :> Result Error number)
      by exact (eq_trans (eq_sym C') C).
    now injection E as ->.
Qed.
End CountedReads.

Section FindMany.
Context `{Schema}.
Import BaseRepositoryService.

(** Within the integers a double holds exactly, the JavaScript paging is
    the paging of the specification. *)
Lemma paging_calls_steps (p l : Z) :
  1 <= p <= two53 -> 0 <= l -> (p - 1) * l <= two53 ->
  paging_calls (Int p) (Int l) = paging_steps p l.
Proof.
  intros Hp Hl B. unfold paging_calls, paging_steps.
  rewrite sub_Int by (unfold two53 in *; lia).
  now rewrite mul_Int by lia.
Qed.

(** C2 (amended).  [findMany] and [findManyLean] with a pagination option
    execute the query with skip = (page-1)*limit and limit = limit called
    on it after the option steps, a missing page counting as 1 and a
    missing limit as 10, where the product is the one JavaScript computes
    on doubles; it is the integer (page-1)*limit whenever page >= 1,
    limit >= 0 and that integer is at most 2^53, so that pagination
    {page:2, limit:10} gives skip 10 and limit 10.  Without a pagination
    option the methods call neither skip nor limit on the query
    (passthrough options, when given, go to the driver as they are). *)
Theorem findMany_applies_pagination (o : option FindOptions.t) :
  (o ?. FindOptions.pagination
     = Some {| PaginationOptions.page := Some (Int 2);
               PaginationOptions.limit := Some (Int 10) |} ->
   findMany o =
     perform (exec (find_query o [Query.skip (Int 10);
                                  Query.limit (Int 10)]))
   /\ findManyLean o =
        perform (lean_exec (find_query o [Query.skip (Int 10);
                                          Query.limit (Int 10)])))
  /\ (forall pg,
        o ?. FindOptions.pagination = Some pg ->
        findMany o =
          perform (exec (find_query o
                           (paging_calls
                              (default_to (PaginationOptions.page pg)
                                 (Int 1))
                              (default_to (PaginationOptions.limit pg)
                                 (Int 10)))))
        /\ findManyLean o =
             perform (lean_exec
                        (find_query o
                           (paging_calls
                              (default_to (PaginationOptions.page pg)
                                 (Int 1))
                              (default_to (PaginationOptions.limit pg)
                                 (Int 10))))))
  /\ (forall p l,
        o ?. FindOptions.pagination
          = Some {| PaginationOptions.page := Some (Int p);
                    PaginationOptions.limit := Some (Int l) |} ->
        1 <= p <= two53 -> 0 <= l -> (p - 1) * l <= two53 ->
        findMany o = perform (exec (find_query o (paging_steps p l)))
        /\ findManyLean o =
             perform (lean_exec (find_query o (paging_steps p l))))
  /\ (forall l,
        o ?. FindOptions.pagination
          = Some {| PaginationOptions.page := None;
                    PaginationOptions.limit := Some (Int l) |} ->
        0 <= l ->
        findMany o = perform (exec (find_query o (paging_steps 1 l)))
        /\ findManyLean o =
             perform (lean_exec (find_query o (paging_steps 1 l))))
  /\ (forall p,
        o ?. FindOptions.pagination
          = Some {| PaginationOptions.page := Some (Int p);
                    PaginationOptions.limit := None |} ->
        1 <= p <= two53 -> (p - 1) * 10 <= two53 ->
        findMany o = perform (exec (find_query o (paging_steps p 10)))
        /\ findManyLean o =
             perform (lean_exec (find_query o (paging_steps p 10))))
  /\ (o ?. FindOptions.pagination
        = Some {| PaginationOptions.page := None;
                  PaginationOptions.limit := None |} ->
      findMany o = perform (exec (find_query o (paging_steps 1 10)))
      /\ findManyLean o =
           perform (lean_exec (find_query o (paging_steps 1 10))))
  /\ (o ?. FindOptions.pagination = None ->
      findMany o = perform (exec (find_query o []))
      /\ findManyLean o = perform (lean_exec (find_query o []))
      /\ forall m, In m (Query.calls (find_query o [])) ->
                   is_paging m = false).
Proof.
  rewrite findMany_query, findManyLean_query.
  split; [intros ->; split; reflexivity|].
  split; [intros pg ->; split; reflexivity|].
  split.
  { intros p l -> Hp Hl B.
    cbn [default_to PaginationOptions.page PaginationOptions.limit].
    rewrite paging_calls_steps by assumption. split; reflexivity. }
  split.
  { intros l -> Hl.
    cbn [default_to PaginationOptions.page PaginationOptions.limit].
    rewrite paging_calls_steps by (unfold two53; lia). split; reflexivity. }
  split.
  { intros p -> Hp B.
    cbn [default_to PaginationOptions.page PaginationOptions.limit].
    rewrite paging_calls_steps by (assumption || lia). split; reflexivity. }
  split; [intros ->; split; reflexivity|].
  intros ->. split; [reflexivity|]. split; [reflexivity|].
  unfold find_query. simpl. rewrite app_nil_r.
  apply option_steps_not_paging.
Qed.

(** C10.  In [findMany] and [findManyLean] a page of 0 is kept as it is:
    pagination {page:0, limit:L}, for every integer L that is a double,
    executes skip = (0-1)*L = -L and limit = L, with neither field
    defaulted or clamped (for L = 0 the limit stays 0 and the skip is the
    double -0).  [findWithPagination] on the same options replaces the
    falsy page by 1, and a limit of 0 by 10, before it delegates, so its
    data fetch runs with the skip (1-1)*L, a zero (the double -0 when L is
    negative). *)
Theorem findMany_keeps_zero_page
    (Store Error : Type) (d : Driver Store Error) (sched : bool)
    (st : Store) (o : option FindOptions.t) (L : Z) :
  o ?. FindOptions.pagination
    = Some {| PaginationOptions.page := Some (Int 0);
              PaginationOptions.limit := Some (Int L) |} ->
  is_double (Int L) = true ->
  findMany o =
    perform (exec (find_query o [Query.skip (neg (Int L));
                                 Query.limit (Int L)]))
  /\ findManyLean o =
       perform (lean_exec (find_query o [Query.skip (neg (Int L));
                                         Query.limit (Int L)]))
  /\ neg (Int L) = (if L =? 0 then Zero true else Int (- L))
  /\ effective_page o = Int 1
  /\ effective_limit o = Int (if L =? 0 then 10 else L)
  /\ calls_of d sched (findWithPagination o) st =
       if sched
       then [issued (exec (find_query o
                             [Query.skip (Zero (L <? 0));
                              Query.limit
                                (Int (if L =? 0 then 10 else L))]));
             issued (count_call o)]
       else [issued (count_call o);
             issued (exec (find_query o
                             [Query.skip (Zero (L <? 0));
                              Query.limit
                                (Int (if L =? 0 then 10 else L))]))].
Proof.
  intros E D.
  assert (EP : effective_page o = Int 1).
  { unfold effective_page. destruct o as [o|]; [|discriminate].
    simpl in *. now rewrite E. }
  assert (EL : effective_limit o = Int (if L =? 0 then 10 else L)).
  { unfold effective_limit. destruct o as [o|]; [|discriminate].
    simpl in *. rewrite E. simpl.
    destruct (Z.eqb_spec L 0) as [->|N]; [reflexivity|].
    unfold Int. now destruct (Z.eqb_spec L 0). }
  rewrite findMany_query, findManyLean_query, E.
  unfold paging_calls.
  cbn [default_to PaginationOptions.page PaginationOptions.limit].
  rewrite (minus_one_times _ D).
  split; [reflexivity|]. split; [reflexivity|].
  split; [apply neg_Int|]. split; [exact EP|]. split; [exact EL|].
  rewrite findWithPagination_shape, calls_of_all2, EP, EL.
  unfold paging_calls.
  assert (Z : mul (sub (Int 1) (Int 1)) (Int (if L =? 0 then 10 else L))
              = Zero (L <? 0)).
  { destruct L; reflexivity. }
  now rewrite Z.
Qed.
End FindMany.

Lemma findMany_applies_pagination_witness :
  BaseRepositoryService.findMany
    (Some (Users.paged (Some (Int 2)) (Some (Int 10))))
  = perform (exec (find_query
                     (Some (Users.paged (Some (Int 2)) (Some (Int 10))))
                     [Query.skip (Int 10); Query.limit (Int 10)])).
Proof.
  destruct (findMany_applies_pagination
              (Some (Users.paged (Some (Int 2)) (Some (Int 10)))))
    as [S _].
  apply S. reflexivity.
Defined.

Lemma findMany_keeps_zero_page_witness :
  BaseRepositoryService.findMany
    (Some (Users.paged (Some (Int 0)) (Some (Int 10))))
  = perform (exec (find_query
                     (Some (Users.paged (Some (Int 0)) (Some (Int 10))))
                     [Query.skip (Int (-10)); Query.limit (Int 10)])).
Proof.
  apply (@findMany_keeps_zero_page Users.schema _ _
           (@Reference.driver _ Users.collection)
           true Users.twenty_five
           (Some (Users.paged (Some (Int 0)) (Some (Int 10)))) 10).
  - reflexivity.
  - reflexivity.
Defined.

Section PaginatedResults.
Context `{Collection}.
Import BaseRepositoryService.
Variables Store Error : Type.
Variable d : Driver Store Error.

Lemma findWithPagination_Ok sched o st r st' :
  run d sched (findWithPagination o) st = (Ok r, st') ->
  exists data total,
    r = paginated (effective_page o) (effective_limit o) data total.
Proof. rewrite findWithPagination_shape. apply run_all2_Ok. Qed.

Lemma findWithPaginationLean_Ok sched o st r st' :
  run d sched (findWithPaginationLean o) st = (Ok r, st') ->
  exists data total,
    r = paginated (effective_page o) (effective_limit o) data total.
Proof. rewrite findWithPaginationLean_shape. apply run_all2_Ok. Qed.

Lemma reference_findWithPagination sched o (db : Reference.Store) :
  run Reference.driver sched (findWithPagination o) db =
  (Ok (paginated (effective_page o) (effective_limit o)
         (Reference.read
            (find_query o (paging_calls (effective_page o)
                             (effective_limit o))) db)
         (Reference.count_of (List.filter (matches (effective_filter o)) db))),
   db).
Proof.
  rewrite findWithPagination_shape, run_all2. now destruct sched.
Qed.

Lemma reference_findWithPaginationLean sched o (db : Reference.Store) :
  run Reference.driver sched (findWithPaginationLean o) db =
  (Ok (paginated (effective_page o) (effective_limit o)
         (List.map flatten
            (Reference.read
               (find_query o (paging_calls (effective_page o)
                                (effective_limit o))) db))
         (Reference.count_of (List.filter (matches (effective_filter o)) db))),
   db).
Proof.
  rewrite findWithPaginationLean_shape, run_all2. now destruct sched.
Qed.


(** C9.  The limit that divides the total is the effective limit, and it
    is never 0 (neither zero of the doubles, nor any other falsy number):
    a supplied limit of 0, like every falsy one, is replaced by 10, so no
    division by zero occurs, in [findWithPagination] and in
    [findWithPaginationLean] alike: for every finite total the number of
    pages is a number (not NaN), and for an integer total and an integer
    limit in the range doubles hold exactly it is an integer. *)
Theorem effective_limit_never_zero
    (sched : bool) (o : option FindOptions.t) (st : Store) :
  effective_limit o <> Int 0
  /\ (forall s, effective_limit o <> Zero s)
  /\ effective_limit o <> NaN
  /\ truthy (effective_limit o) = true
  /\ (forall pg l,
        o ?. FindOptions.pagination = Some pg ->
        PaginationOptions.limit pg = Some l ->
        truthy l = false ->
        effective_limit o = Int 10)
  /\ (forall pg,
        o ?. FindOptions.pagination = Some pg ->
        PaginationOptions.limit pg = Some (Int 0) ->
        effective_limit o = Int 10)
  /\ (forall r st',
        run d sched (findWithPagination o) st = (Ok r, st') ->
        Meta.limit (PaginatedResult.meta r) = effective_limit o
        /\ Meta.totalPages (PaginatedResult.meta r)
           = ceil_div (Meta.total (PaginatedResult.meta r))
               (effective_limit o))
  /\ (forall r st',
        run d sched (findWithPaginationLean o) st = (Ok r, st') ->
        Meta.limit (PaginatedResult.meta r) = effective_limit o
        /\ Meta.totalPages (PaginatedResult.meta r)
           = ceil_div (Meta.total (PaginatedResult.meta r))
               (effective_limit o))
  /\ (forall total,
        total <> NaN -> (forall s, total <> Infinity s) ->
        ceil_div total (effective_limit o) <> NaN)
  /\ (forall t l : Z,
        effective_limit o = Int l ->
        0 <= t <= two53 -> 1 <= l <= two53 ->
        exists tp : Z, ceil_div (Int t) (effective_limit o) = Int tp).
Proof.
  pose proof (effective_limit_truthy o) as T.
  assert (NZ : forall s, effective_limit o <> Zero s).
  { intros s E. rewrite E in T. discriminate T. }
  assert (NN : effective_limit o <> NaN).
  { intros E. rewrite E in T. discriminate T. }
  assert (F : forall pg l,
             o ?. FindOptions.pagination = Some pg ->
             PaginationOptions.limit pg = Some l ->
             truthy l = false -> effective_limit o = Int 10).
  { intros pg l E1 E2 E3. unfold effective_limit. rewrite E1. simpl.
    rewrite E2. simpl. now rewrite E3. }
  split; [exact (NZ false)|]. split; [exact NZ|]. split; [exact NN|].
  split; [exact T|]. split; [exact F|].
  split; [intros pg E1 E2; now apply (F pg (Int 0))|].
  split; [|split; [|split]].
  - intros r st' R. apply findWithPagination_Ok in R.
    destruct R as (x & y & ->). split; reflexivity.
  - intros r st' R. apply findWithPaginationLean_Ok in R.
    destruct R as (x & y & ->). split; reflexivity.
  - intros total N1 N2. unfold ceil_div. apply ceil_not_NaN.
    destruct total as [|s'|s'|x];
      [now destruct N1|now destruct (N2 s')| |];
      destruct (effective_limit o) as [|s|s|l]; try discriminate T;
      try easy.
    apply round_not_NaN.
  - intros t l -> Ht Hl. rewrite ceil_div_Int by assumption. eauto.
Qed.
End PaginatedResults.


Section TwoCalls.
Context `{Collection}.
Import BaseRepositoryService.
Variables Store Error : Type.
Variable d : Driver Store Error.

Lemma session_in_find_query o s paging :
  (forall m, In m paging -> is_paging m = true) ->
  In (Query.session s) (Query.calls (find_query o paging)) <->
  o ?. FindOptions.session = Some s.
Proof.
  intros P. unfold find_query. simpl. rewrite in_app_iff, session_in_steps.
  split; [|tauto]. intros [E|I]; [exact E|].
  apply P in I. discriminate I.
Qed.

Lemma paging_calls_paging page limit m :
  In m (paging_calls page limit) -> is_paging m = true.
Proof. intros [<-|[<-|[]]]; reflexivity. Qed.

(** C3.  With the pagination option or one of its fields absent the
    effective page is 1 and the effective limit 10.  Whatever the driver
    answers and in whichever order it serves them, [findWithPagination]
    makes exactly two driver calls, each fixed by the options alone: the
    data fetch that [findMany] performs for the effective page and limit,
    and a count over the same filter.  The caller's session reaches both
    unchanged, and the meta carries the effective page and limit.  On the
    reference driver the two serving orders give the same outcome. *)
Theorem findWithPagination_two_independent_calls
    (sched : bool) (o : option FindOptions.t) (st : Store)
    (db : Reference.Store) :
  (o ?. FindOptions.pagination = None ->
   effective_page o = Int 1 /\ effective_limit o = Int 10)
  /\ (forall pg, o ?. FindOptions.pagination = Some pg ->
                 PaginationOptions.page pg = None ->
                 effective_page o = Int 1)
  /\ (forall pg, o ?. FindOptions.pagination = Some pg ->
                 PaginationOptions.limit pg = None ->
                 effective_limit o = Int 10)
  /\ calls_of d sched (findWithPagination o) st =
       (if sched
        then [issued (exec (find_query o
                              (paging_calls (effective_page o)
                                 (effective_limit o))));
              issued (countDocuments (effective_filter o)
                        (o ?. FindOptions.session))]
        else [issued (countDocuments (effective_filter o)
                        (o ?. FindOptions.session));
              issued (exec (find_query o
                              (paging_calls (effective_page o)
                                 (effective_limit o))))])
  /\ findMany
       (Some (FindOptions.with_pagination o
                {| PaginationOptions.page := Some (effective_page o);
                   PaginationOptions.limit := Some (effective_limit o) |}))
     = perform (exec (find_query o
                        (paging_calls (effective_page o)
                           (effective_limit o))))
  /\ Query.from (find_query o
                   (paging_calls (effective_page o) (effective_limit o)))
     = Query.find (effective_filter o)
  /\ (forall s,
        In (Query.session s)
          (Query.calls (find_query o
                          (paging_calls (effective_page o)
                             (effective_limit o))))
        <-> o ?. FindOptions.session = Some s)
  /\ (forall r st',
        run d sched (findWithPagination o) st = (Ok r, st') ->
        Meta.page (PaginatedResult.meta r) = effective_page o
        /\ Meta.limit (PaginatedResult.meta r) = effective_limit o)
  /\ run Reference.driver true (findWithPagination o) db
     = run Reference.driver false (findWithPagination o) db
  /\ (exists r, run Reference.driver sched (findWithPagination o) db
                = (Ok r, db)).
Proof.
  split.
  { unfold effective_page, effective_limit. now intros ->. }
  split.
  { unfold effective_page. intros pg -> E. simpl. now rewrite E. }
  split.
  { unfold effective_limit. intros pg -> E. simpl. now rewrite E. }
  split.
  { rewrite findWithPagination_shape. apply calls_of_all2. }
  split.
  { rewrite findMany_query, find_query_with_pagination. reflexivity. }
  split; [reflexivity|].
  split.
  { intros s. apply session_in_find_query, paging_calls_paging. }
  split.
  { intros r st' R. apply findWithPagination_Ok in R.
    destruct R as (x & y & ->). split; reflexivity. }
  split.
  { now rewrite !reference_findWithPagination. }
  rewrite reference_findWithPagination. eauto.
Qed.

(** C7.  For the same options [findWithPaginationLean] makes the calls of
    [findWithPagination] on the same query (same filter, same option
    steps, same skip and limit from the same effective page and limit)
    and the same count; only the data fetch is executed lean.  Given the
    same total the two return the same meta, and on the reference driver
    the lean data are the flattened documents of the other. *)
Theorem findWithPaginationLean_same_query
    (sched : bool) (o : option FindOptions.t) (st : Store)
    (db : Reference.Store) :
  calls_of d sched (findWithPagination o) st =
    (if sched
     then [issued (exec (find_query o
                           (paging_calls (effective_page o)
                              (effective_limit o))));
           issued (count_call o)]
     else [issued (count_call o);
           issued (exec (find_query o
                           (paging_calls (effective_page o)
                              (effective_limit o))))])
  /\ calls_of d sched (findWithPaginationLean o) st =
       (if sched
        then [issued (lean_exec (find_query o
                                   (paging_calls (effective_page o)
                                      (effective_limit o))));
              issued (count_call o)]
        else [issued (count_call o);
              issued (lean_exec (find_query o
                                   (paging_calls (effective_page o)
                                      (effective_limit o))))])
  /\ (forall r r' st1 st2,
        run d sched (findWithPagination o) st = (Ok r, st1) ->
        run d sched (findWithPaginationLean o) st = (Ok r', st2) ->
        Meta.total (PaginatedResult.meta r)
          = Meta.total (PaginatedResult.meta r') ->
        PaginatedResult.meta r = PaginatedResult.meta r')
  /\ (exists r,
        run Reference.driver sched (findWithPagination o) db = (Ok r, db)
        /\ run Reference.driver sched (findWithPaginationLean o) db
           = (Ok {| PaginatedResult.data :=
                      List.map flatten (PaginatedResult.data r);
                    PaginatedResult.meta := PaginatedResult.meta r |},
              db)).
Proof.
  split.
  { rewrite findWithPagination_shape. apply calls_of_all2. }
  split.
  { rewrite findWithPaginationLean_shape. apply calls_of_all2. }
  split.
  { intros r r' st1 st2 R R' E.
    apply findWithPagination_Ok in R. destruct R as (x & y & ->).
    apply findWithPaginationLean_Ok in R'. destruct R' as (x' & y' & ->).
    simpl in E. subst y'. reflexivity. }
  rewrite reference_findWithPagination, reference_findWithPaginationLean.
  eexists. split; reflexivity.
Qed.
End TwoCalls.

(* ================================================================== *)
(** ** Updates and deletes *)
(* ================================================================== *)

Section Mutations.
Context `{Collection}.
Import BaseRepositoryService.

Lemma find_no_match (p : Doc -> bool) (db : list Doc) :
  existsb p db = false -> List.find p db = None.
Proof.
  induction db as [|x db IH]; simpl; [reflexivity|].
  destruct (p x); simpl; [discriminate|exact IH].
Qed.

Lemma filter_no_match (p : Doc -> bool) (db : list Doc) :
  existsb p db = false -> List.filter p db = [].
Proof.
  induction db as [|x db IH]; simpl; [reflexivity|].
  destruct (p x); simpl; [discriminate|exact IH].
Qed.

Lemma update_first_stores (p : Doc -> bool) (g : Doc -> Doc) db x :
  List.find p db = Some x -> In (g x) (Reference.update_first p g db).
Proof.
  induction db as [|y db IH]; simpl; [discriminate|].
  destruct (p y).
  - intros [= ->]. now left.
  - intros E. right. now apply IH.
Qed.

Lemma find_and_update_new (p : Doc -> bool) u o db x :
  FindOneAndUpdateOptions.new o = true ->
  List.find p db = Some x ->
  Reference.find_and_update p u o db =
  if FindOneAndUpdateOptions.runValidators o
     && negb (valid (apply_update u x))
  then (Err Reference.ValidationError, db)
  else (Ok (Some (apply_update u x)),
        Reference.update_first p (apply_update u) db).
Proof.
  intros N F. unfold Reference.find_and_update. now rewrite F, N.
Qed.

(** C5.  Each of the three update operations passes runValidators = true
    to the driver when the caller gives no options or no runValidators
    field, and the caller's own value otherwise, so that an explicit false
    turns validators off for that one call.  The value is fixed by the
    call's arguments alone: nothing else can change the default.  On the
    reference driver an update that the validators reject fails by default
    and goes through, returning the updated entity, under
    runValidators: false. *)
Theorem update_runs_validators_by_default
    (sched : bool) (id : IdType) (f : FilterQuery) (u : UpdateQuery)
    (s : option ClientSession) (b : bool)
    (db : Reference.Store) (x : Doc) :
  updateById id u None
   = perform (findByIdAndUpdate id u
              {| FindOneAndUpdateOptions.new := true;
                 FindOneAndUpdateOptions.runValidators := true;
                 FindOneAndUpdateOptions.session := None |})
  /\ updateById id u
     (Some {| UpdateOptions.session := s;
              UpdateOptions.runValidators := None |})
   = perform (findByIdAndUpdate id u
              {| FindOneAndUpdateOptions.new := true;
                 FindOneAndUpdateOptions.runValidators := true;
                 FindOneAndUpdateOptions.session := s |})
  /\ updateById id u
     (Some {| UpdateOptions.session := s;
              UpdateOptions.runValidators := Some b |})
   = perform (findByIdAndUpdate id u
              {| FindOneAndUpdateOptions.new := true;
                 FindOneAndUpdateOptions.runValidators := b;
                 FindOneAndUpdateOptions.session := s |})
  /\ updateOne f u None
   = perform (findOneAndUpdate f u
              {| FindOneAndUpdateOptions.new := true;
                 FindOneAndUpdateOptions.runValidators := true;
                 FindOneAndUpdateOptions.session := None |})
  /\ updateOne f u
     (Some {| UpdateOptions.session := s;
              UpdateOptions.runValidators := None |})
   = perform (findOneAndUpdate f u
              {| FindOneAndUpdateOptions.new := true;
                 FindOneAndUpdateOptions.runValidators := true;
                 FindOneAndUpdateOptions.session := s |})
  /\ updateOne f u
     (Some {| UpdateOptions.session := s;
              UpdateOptions.runValidators := Some b |})
   = perform (findOneAndUpdate f u
              {| FindOneAndUpdateOptions.new := true;
                 FindOneAndUpdateOptions.runValidators := b;
                 FindOneAndUpdateOptions.session := s |})
  /\ updateMany f u None
   = await (Model.updateMany f u
              {| UpdateManyOptions.runValidators := true;
                 UpdateManyOptions.session := None |})
       (fun r => resolve (UpdateResult.modifiedCount r))
  /\ updateMany f u
     (Some {| UpdateOptions.session := s;
              UpdateOptions.runValidators := None |})
   = await (Model.updateMany f u
              {| UpdateManyOptions.runValidators := true;
                 UpdateManyOptions.session := s |})
       (fun r => resolve (UpdateResult.modifiedCount r))
  /\ updateMany f u
     (Some {| UpdateOptions.session := s;
              UpdateOptions.runValidators := Some b |})
   = await (Model.updateMany f u
              {| UpdateManyOptions.runValidators := b;
                 UpdateManyOptions.session := s |})
       (fun r => resolve (UpdateResult.modifiedCount r))
  /\ (List.find (has_id id) db = Some x ->
      valid (apply_update u x) = false ->
      run Reference.driver sched (updateById id u None) db
        = (Err Reference.ValidationError, db)
      /\ run Reference.driver sched
           (updateById id u
              (Some {| UpdateOptions.session := s;
                       UpdateOptions.runValidators := Some false |})) db
         = (Ok (Some (apply_update u x)),
            Reference.update_first (has_id id) (apply_update u) db)).
Proof.
  do 9 (split; [reflexivity|]).
  intros F V. split; simpl.
  - erewrite find_and_update_new; [|reflexivity|eassumption]. simpl.
    now rewrite V.
  - erewrite find_and_update_new; [|reflexivity|eassumption]. reflexivity.
Qed.

(** C4.  [updateById] and [updateOne] ask the driver for the updated
    document (new: true) whatever options the caller passes.  So when the
    id or the filter matches a stored entity, what they return, if they
    return an entity, is that entity after the update, which is the one
    the store then holds; and they do return it as soon as validators are
    off or accept the outcome. *)
Theorem update_returns_updated
    (sched : bool) (id : IdType) (f : FilterQuery) (u : UpdateQuery)
    (o : option UpdateOptions.t) (db : Reference.Store) (x y : Doc) :
  List.find (has_id id) db = Some x ->
  List.find (matches f) db = Some y ->
  (exists opts,
      updateById id u o = perform (findByIdAndUpdate id u opts)
      /\ FindOneAndUpdateOptions.new opts = true)
  /\ (exists opts,
        updateOne f u o = perform (findOneAndUpdate f u opts)
        /\ FindOneAndUpdateOptions.new opts = true)
  /\ (forall r db',
        run Reference.driver sched (updateById id u o) db = (Ok r, db') ->
        r = Some (apply_update u x) /\ In (apply_update u x) db')
  /\ (forall r db',
        run Reference.driver sched (updateOne f u o) db = (Ok r, db') ->
        r = Some (apply_update u y) /\ In (apply_update u y) db')
  /\ (o ?. UpdateOptions.runValidators = Some false
      \/ valid (apply_update u x) = true ->
      run Reference.driver sched (updateById id u o) db
      = (Ok (Some (apply_update u x)),
         Reference.update_first (has_id id) (apply_update u) db))
  /\ (o ?. UpdateOptions.runValidators = Some false
      \/ valid (apply_update u y) = true ->
      run Reference.driver sched (updateOne f u o) db
      = (Ok (Some (apply_update u y)),
         Reference.update_first (matches f) (apply_update u) db)).
Proof.
  intros Fx Fy.
  split; [eexists; split; reflexivity|].
  split; [eexists; split; reflexivity|].
  split.
  { intros r db'. simpl.
    erewrite find_and_update_new; [|reflexivity|eassumption].
    destruct (_ && _); [discriminate|]. intros [= <- <-].
    split; [reflexivity|now apply update_first_stores]. }
  split.
  { intros r db'. simpl.
    erewrite find_and_update_new; [|reflexivity|eassumption].
    destruct (_ && _); [discriminate|]. intros [= <- <-].
    split; [reflexivity|now apply update_first_stores]. }
  split.
  { intros V. simpl.
    erewrite find_and_update_new; [|reflexivity|eassumption]. simpl.
    destruct V as [-> | ->]; simpl; [reflexivity|].
    now rewrite andb_false_r. }
  intros V. simpl.
  erewrite find_and_update_new; [|reflexivity|eassumption]. simpl.
  destruct V as [-> | ->]; simpl; [reflexivity|].
  now rewrite andb_false_r.
Qed.

(** C6.  [updateById], [updateOne], [deleteById], [deleteOne], [findById]
    and [findOne] are each a single driver call whose answer, value or
    rejection, is returned as it is: the class raises nothing of its own.
    On the reference driver, each of them resolves to the not-found
    sentinel when its own target is missing: the by-id operations (and
    [findByIdLean]) when no stored entity has the id, whatever their
    options; [updateOne] and [deleteOne] when none matches the filter;
    [findOne] (and [findOneLean]) when none matches the filter of the
    options.  The call succeeds with null and the store is left as it
    was. *)
Theorem not_found_is_null
    (Store Error : Type) (d : Driver Store Error) (st : Store)
    (sched : bool) (id : IdType) (f : FilterQuery) (u : UpdateQuery)
    (uo : option UpdateOptions.t) (mo : option MutationOptions.t)
    (fo : option FindOptions.t) (db : Reference.Store) :
  (forall X (c : DriverCall X), run d sched (perform c) st = d X c st)
  /\ (exists c, updateById id u uo = perform c)
  /\ (exists c, updateOne f u uo = perform c)
  /\ (exists c, deleteById id mo = perform c)
  /\ (exists c, deleteOne f mo = perform c)
  /\ (exists c, findById id fo = perform c)
  /\ (exists c, findOne fo = perform c)
  /\ (existsb (has_id id) db = false ->
      run Reference.driver sched (updateById id u uo) db = (Ok None, db)
      /\ run Reference.driver sched (deleteById id mo) db = (Ok None, db)
      /\ run Reference.driver sched (findById id fo) db = (Ok None, db)
      /\ run Reference.driver sched (findByIdLean id fo) db
         = (Ok None, db))
  /\ (existsb (matches f) db = false ->
      run Reference.driver sched (updateOne f u uo) db = (Ok None, db)
      /\ run Reference.driver sched (deleteOne f mo) db = (Ok None, db))
  /\ (existsb (matches (effective_filter fo)) db = false ->
      run Reference.driver sched (findOne fo) db = (Ok None, db)
      /\ run Reference.driver sched (findOneLean fo) db = (Ok None, db)).
Proof.
  split; [intros X c; apply run_perform|].
  do 6 (split; [eexists; reflexivity|]).
  split; [|split].
  - intros Hid.
    pose proof (find_no_match _ _ Hid) as Fid.
    pose proof (filter_no_match _ _ Hid) as Lid.
    repeat split; simpl.
    + unfold Reference.find_and_update. now rewrite Fid.
    + unfold Reference.find_and_delete. now rewrite Fid.
    + unfold Reference.read. rewrite applyQueryOptions_extend. simpl.
      now rewrite Lid.
    + unfold Reference.read. rewrite applyQueryOptions_extend. simpl.
      now rewrite Lid.
  - intros Hf. pose proof (find_no_match _ _ Hf) as Ff.
    split; simpl.
    + unfold Reference.find_and_update. now rewrite Ff.
    + unfold Reference.find_and_delete. now rewrite Ff.
  - intros Hfo. pose proof (filter_no_match _ _ Hfo) as Lfo.
    split; simpl.
    + unfold Reference.read. rewrite applyQueryOptions_extend. simpl.
      fold (effective_filter fo). now rewrite Lfo.
    + unfold Reference.read. rewrite applyQueryOptions_extend. simpl.
      fold (effective_filter fo). now rewrite Lfo.
Qed.
End Mutations.

(* ================================================================== *)
(** ** Single calls: answers, rejections and sessions *)
(* ================================================================== *)

Section SingleCalls.
Context `{Schema}.
Import BaseRepositoryService.

Lemma one_call_await X R (c : DriverCall X) (g : X -> R) :
  one_call (await c (fun x => resolve (g x))) c g.
Proof.
  intros Store Error d sched st. unfold calls_of, logging. simpl.
  destruct (d X c st) as [[x|e] st']; split; reflexivity.
Qed.

Lemma one_call_calls X R (p : Promise R) (c : DriverCall X) (g : X -> R) :
  one_call p c g ->
  forall (Store Error : Type) (d : Driver Store Error) (sched : bool)
         (st : Store),
    calls_of d sched p st = [issued c].
Proof. intros O Store Error d sched st. apply O. Qed.

Lemma one_call_perform X (c : DriverCall X) :
  one_call (perform c) c (fun x => x).
Proof. exact (one_call_await c (fun x => x)). Qed.

Lemma create_one_call data o :
  one_call (create data o)
    (save data (option_map (fun s => {| SaveOptions.session := s |})
                  (o ?. MutationOptions.session)))
    (fun doc => doc).
Proof.
  unfold create. destruct (o ?. MutationOptions.session);
    apply one_call_perform.
Qed.

Lemma createMany_one_call data o :
  one_call (createMany data o)
    (insertMany data
       (option_map (fun s => {| SaveOptions.session := s |})
          (o ?. MutationOptions.session)))
    (fun docs => docs).
Proof.
  unfold createMany. destruct (o ?. MutationOptions.session);
    apply one_call_perform.
Qed.

Lemma count_one_call filter o :
  one_call (count filter o)
    (countDocuments (or_else filter match_all)
       (o ?. MutationOptions.session))
    (fun n => n).
Proof. apply one_call_perform. Qed.

Lemma exists_one_call f o :
  one_call (exists_ f o)
    (Model.exists_ f (o ?. MutationOptions.session))
    not_null.
Proof. exact (one_call_await _ not_null). Qed.

Lemma updateMany_one_call f u o :
  one_call (updateMany f u o)
    (Model.updateMany f u
       {| UpdateManyOptions.runValidators :=
            nullish (o ?. UpdateOptions.runValidators) true;
          UpdateManyOptions.session := o ?. UpdateOptions.session |})
    UpdateResult.modifiedCount.
Proof. exact (one_call_await _ UpdateResult.modifiedCount). Qed.

Lemma deleteMany_one_call f o :
  one_call (deleteMany f o)
    (Model.deleteMany f (o ?. MutationOptions.session))
    DeleteResult.deletedCount.
Proof. exact (one_call_await _ DeleteResult.deletedCount). Qed.

Lemma bound_session_app (l1 l2 : list Query.method) :
  bound_session (l1 ++ l2) =
  match bound_session l2 with
  | Some s => Some s
  | None => bound_session l1
  end.
Proof.
  induction l1 as [|m l1 IH]; simpl.
  - now destruct (bound_session l2).
  - destruct m; try exact IH.
    rewrite IH. now destruct (bound_session l2), (bound_session l1).
Qed.

Lemma bound_session_step_none A `{Truthy A} (o : option A)
    (m : A -> Query.method) :
  (forall a, bound_session [m a] = None) ->
  bound_session (step o m) = None.
Proof.
  intros N. destruct (step_cases o m) as [-> | [a ->]]; [reflexivity|].
  apply N.
Qed.

Lemma bound_session_option_steps o :
  bound_session (option_steps o) = o ?. FindOptions.session.
Proof.
  unfold option_steps. rewrite !bound_session_app.
  rewrite (bound_session_step_none _ Query.setOptions) by reflexivity.
  rewrite (bound_session_step_none _ Query.populate) by reflexivity.
  rewrite (bound_session_step_none _ Query.sort) by reflexivity.
  rewrite (bound_session_step_none _ Query.select) by reflexivity.
  now destruct (o ?. FindOptions.session).
Qed.

Lemma bound_session_find_query o paging :
  (forall m, In m paging -> is_paging m = true) ->
  bound_session (Query.calls (find_query o paging))
  = o ?. FindOptions.session.
Proof.
  intros P. unfold find_query. simpl. rewrite bound_session_app.
  assert (N : bound_session paging = None).
  { induction paging as [|m l IH]; [reflexivity|].
    assert (Pm := P m (or_introl eq_refl)).
    destruct m; try discriminate Pm; simpl; apply IH;
      intros m' I; apply P; now right. }
  rewrite N. apply bound_session_option_steps.
Qed.

Lemma paging_of_findMany o m :
  In m match o ?. FindOptions.pagination with
       | Some pg =>
           paging_calls (default_to (PaginationOptions.page pg) (Int 1))
             (default_to (PaginationOptions.limit pg) (Int 10))
       | None => []
       end ->
  is_paging m = true.
Proof.
  destruct (o ?. FindOptions.pagination); [|intros []].
  intros [<-|[<-|[]]]; reflexivity.
Qed.

(** X1.  [create], [createMany], [count], [exists], [updateMany] and
    [deleteMany] each make exactly one driver call, whatever the driver
    answers: a rejection is returned as it is and the call is not made
    again, an answer is returned after the one fixed step of the method
    (the document or documents as they are, the count as it is, whether the
    answer is non-null, the modified count, the deleted count).  An absent
    filter counts over {} and an empty array is still handed to
    [insertMany]. *)
Theorem single_call_methods
    (data : Partial) (datas : list Partial) (filter : option FilterQuery)
    (f : FilterQuery) (u : UpdateQuery)
    (mo : option MutationOptions.t) (uo : option UpdateOptions.t) :
  one_call (create data mo)
    (save data (option_map (fun s => {| SaveOptions.session := s |})
                  (mo ?. MutationOptions.session)))
    (fun doc => doc)
  /\ one_call (createMany datas mo)
       (insertMany datas
          (option_map (fun s => {| SaveOptions.session := s |})
             (mo ?. MutationOptions.session)))
       (fun docs => docs)
  /\ one_call (createMany [] mo)
       (insertMany []
          (option_map (fun s => {| SaveOptions.session := s |})
             (mo ?. MutationOptions.session)))
       (fun docs => docs)
  /\ one_call (count filter mo)
       (countDocuments (or_else filter match_all)
          (mo ?. MutationOptions.session))
       (fun n => n)
  /\ one_call (count None mo)
       (countDocuments match_all (mo ?. MutationOptions.session))
       (fun n => n)
  /\ one_call (exists_ f mo)
       (Model.exists_ f (mo ?. MutationOptions.session))
       not_null
  /\ one_call (updateMany f u uo)
       (Model.updateMany f u
          {| UpdateManyOptions.runValidators :=
               nullish (uo ?. UpdateOptions.runValidators) true;
             UpdateManyOptions.session := uo ?. UpdateOptions.session |})
       UpdateResult.modifiedCount
  /\ one_call (deleteMany f mo)
       (Model.deleteMany f (mo ?. MutationOptions.session))
       DeleteResult.deletedCount.
Proof.
  split; [apply create_one_call|].
  split; [apply createMany_one_call|].
  split; [apply createMany_one_call|].
  split; [apply count_one_call|].
  split; [apply (count_one_call None)|].
  split; [apply exists_one_call|].
  split; [apply updateMany_one_call|].
  apply deleteMany_one_call.
Qed.

(** X2.  Every driver call made by a write or utility method carries
    exactly the caller's session: the one in the options when there is
    one, none otherwise.  This holds for [create], [createMany], the three
    updates, the three deletes, [count] and [exists], whatever the driver
    answers. *)
Theorem writes_forward_session
    (Store Error : Type) (d : Driver Store Error) (sched : bool)
    (st : Store) (data : Partial) (datas : list Partial) (id : IdType)
    (filter : option FilterQuery) (f : FilterQuery) (u : UpdateQuery)
    (mo : option MutationOptions.t) (uo : option UpdateOptions.t) :
  Forall (fun i => issued_session i = mo ?. MutationOptions.session)
    (calls_of d sched (create data mo) st
     ++ calls_of d sched (createMany datas mo) st
     ++ calls_of d sched (deleteById id mo) st
     ++ calls_of d sched (deleteOne f mo) st
     ++ calls_of d sched (deleteMany f mo) st
     ++ calls_of d sched (count filter mo) st
     ++ calls_of d sched (exists_ f mo) st)
  /\ Forall (fun i => issued_session i = uo ?. UpdateOptions.session)
       (calls_of d sched (updateById id u uo) st
        ++ calls_of d sched (updateOne f u uo) st
        ++ calls_of d sched (updateMany f u uo) st).
Proof.
  rewrite (one_call_calls (create_one_call data mo)).
  rewrite (one_call_calls (createMany_one_call datas mo)).
  rewrite (one_call_calls (deleteMany_one_call f mo)).
  rewrite (one_call_calls (count_one_call filter mo)).
  rewrite (one_call_calls (exists_one_call f mo)).
  rewrite (one_call_calls (updateMany_one_call f u uo)).
  unfold deleteById, deleteOne, updateById, updateOne.
  rewrite !(one_call_calls (one_call_perform _)).
  split; simpl; repeat constructor; simpl;
    now destruct (mo ?. MutationOptions.session).
Qed.

(** X3.  Every driver call made by a read carries exactly the caller's
    session: the query that [findById], [findOne], [findMany] and their
    lean variants execute is bound to the session of the options, to none
    when there is none, and both calls of [findWithPagination] and
    [findWithPaginationLean] carry it, in either serving order and
    whatever the driver answers. *)
Theorem reads_forward_session
    (Store Error : Type) (d : Driver Store Error) (sched : bool)
    (st : Store) (id : IdType) (o : option FindOptions.t) :
  Forall (fun i => issued_session i = o ?. FindOptions.session)
    (calls_of d sched (findById id o) st
     ++ calls_of d sched (findOne o) st
     ++ calls_of d sched (findMany o) st
     ++ calls_of d sched (findWithPagination o) st
     ++ calls_of d sched (findByIdLean id o) st
     ++ calls_of d sched (findOneLean o) st
     ++ calls_of d sched (findManyLean o) st
     ++ calls_of d sched (findWithPaginationLean o) st).
Proof.
  assert (SM := bound_session_find_query o _ (paging_of_findMany o)).
  assert (SP := bound_session_find_query o _
                  (@paging_calls_paging _ (effective_page o)
                     (effective_limit o))).
  unfold findById, findOne, findByIdLean, findOneLean.
  rewrite findMany_query, findManyLean_query, findWithPagination_shape,
    findWithPaginationLean_shape, !applyQueryOptions_extend.
  rewrite !calls_of_all2. unfold perform. cbn [bind].
  rewrite !(one_call_calls (one_call_await _ (fun x => x))).
  destruct sched; simpl; repeat constructor; simpl;
    first [exact SM | exact SP | apply bound_session_option_steps
          | reflexivity].
Qed.
End SingleCalls.

(* ================================================================== *)
(** ** Pagination: ranges, edges and failures *)
(* ================================================================== *)

(** With a total of zero or more and a negative limit the quotient is
    negative or a zero at every magnitude, rounded, overflowed or
    underflowed: no page number from 0 on is below its ceiling. *)
Lemma ceil_div_negative_limit (t l p : Z) :
  0 <= t -> l < 0 -> 0 <= p ->
  lt (Int p) (ceil_div (Int t) (Int l)) = false.
Proof.
  intros Ht Hl Hp.
  assert (Z0 : forall s, lt (Int p) (Zero s) = false).
  { intros s. unfold Int. destruct (Z.eqb_spec p 0) as [->|N];
      [reflexivity|].
    unfold lt, value_of, Qle_bool. simpl.
    destruct (Z.leb_spec 0 (p * 1)); [reflexivity|lia]. }
  assert (I : lt (Int p) (Infinity true) = false).
  { unfold Int. now destruct (p =? 0). }
  destruct l as [|pl|pl]; try lia.
  destruct t as [|pt|pt]; try lia; [apply Z0|].
  unfold ceil_div, Int at 2 3. simpl. unfold round. simpl.
  destruct (round_magnitude (pt * 1) pl) as [| |v] eqn:E; simpl;
    [apply Z0|exact I|].
  apply round_magnitude_positive in E.
  assert (C : Qceiling (Qopp v) <= 0).
  { destruct v as [n dn]. unfold Qceiling, Qfloor, Qopp. simpl in *.
    rewrite Z.opp_involutive.
    pose proof (Z.div_pos n (Zpos dn) ltac:(lia) ltac:(lia)). lia. }
  destruct (Z.eqb_spec (Qceiling (Qopp v)) 0) as [_|N]; [apply Z0|].
  unfold Int. destruct (Z.eqb_spec p 0) as [->|Np];
    unfold lt, value_of, Qle_bool; simpl; rewrite ?Z.mul_1_r.
  - destruct (Z.leb_spec (Qceiling (Qopp v)) 0); [reflexivity|lia].
  - destruct (Z.leb_spec (Qceiling (Qopp v)) p); [reflexivity|lia].
Qed.

(** A total of zero over a truthy limit is a zero, with the sign of the
    limit. *)
Lemma ceil_div_zero (limit : number) :
  truthy limit = true ->
  ceil_div (Int 0) limit = Zero (lt limit (Int 0)).
Proof.
  destruct limit as [|s|s|q]; try discriminate; intros _.
  - reflexivity.
  - unfold ceil_div, Int, div, ceil, lt, value_of, negative, Qle_bool.
    simpl. f_equal.
    destruct (Z.ltb_spec (Qnum q) 0), (Z.leb_spec 0 (Qnum q * 1));
      simpl; try reflexivity; lia.
Qed.

Lemma lt_zero_sign (x : number) (s : bool) :
  lt x (Zero s) = lt x (Int 0).
Proof. now destruct x. Qed.

Lemma ceiling_lt_iff (p l t : Z) :
  1 <= l -> (p < - ((- t) / l) <-> p * l < t).
Proof.
  intros Hl.
  pose proof (Z.div_mod (- t) l ltac:(lia)) as E.
  pose proof (Z.mod_pos_bound (- t) l ltac:(lia)) as B.
  split; intros; nia.
Qed.

Section PaginationEdges.
Context `{Schema}.
Import BaseRepositoryService.
Variables Store Error : Type.
Variable d : Driver Store Error.

Lemma fetch_call_logged sched o st :
  In (issued (exec (find_query o (paging_calls (effective_page o)
                                    (effective_limit o)))))
    (calls_of d sched (findWithPagination o) st)
  /\ In (issued (lean_exec (find_query o (paging_calls (effective_page o)
                                            (effective_limit o)))))
       (calls_of d sched (findWithPaginationLean o) st).
Proof.
  rewrite findWithPagination_shape, findWithPaginationLean_shape,
    !calls_of_all2.
  destruct sched; simpl; auto.
Qed.

(** X4.  With an integer page p, a limit l with 1 <= l <= 2^53 and a
    total t with 0 <= t <= 2^53 answered by the count query, the meta
    returned by [findWithPagination] or [findWithPaginationLean] has
    hasNextPage exactly when p*l < t: when documents remain beyond the
    offsets the current page covers. *)
Theorem hasNextPage_iff_documents_remain
    (sched : bool) (o : option FindOptions.t) (st : Store)
    (m : Meta.t) (p l t : Z) :
  returns_meta d sched o st (Int t) m ->
  effective_page o = Int p ->
  effective_limit o = Int l ->
  1 <= l <= two53 -> 0 <= t <= two53 ->
  Meta.total m = Int t
  /\ (Meta.hasNextPage m = true <-> p * l < t).
Proof.
  intros R EP EL Hl Ht.
  rewrite (returns_meta_paginated R), EP, EL.
  cbn [paginated PaginatedResult.meta Meta.hasNextPage Meta.total].
  split; [reflexivity|].
  rewrite ceil_div_Int by lia. rewrite lt_Int.
  rewrite Z.ltb_lt. apply ceiling_lt_iff. lia.
Qed.

(** X5.  With an integer page p >= 1, an integer limit l >= 1 and a total
    t >= 0 answered by the count query, all at most 2^53 and with
    (p-1)*l at most 2^53, the page is within 1..totalPages exactly when
    the skip of its data fetch, (p-1)*l, is below the total.  A page past
    the last one is not rejected: the fetch is still made, at an offset
    at or beyond the total, and the meta reports hasNextPage = false. *)
Theorem page_in_range_iff_skip_below_total
    (sched : bool) (o : option FindOptions.t) (st : Store)
    (m : Meta.t) (p l t : Z) :
  returns_meta d sched o st (Int t) m ->
  effective_page o = Int p ->
  effective_limit o = Int l ->
  1 <= p <= two53 -> 1 <= l <= two53 -> 0 <= t <= two53 ->
  (p - 1) * l <= two53 ->
  exists tp,
    Meta.totalPages m = Int tp
    /\ 0 <= (p - 1) * l
    /\ (p <= tp <-> (p - 1) * l < t)
    /\ (tp < p -> t <= (p - 1) * l /\ Meta.hasNextPage m = false)
    /\ In (issued (exec (find_query o
                           [Query.skip (Int ((p - 1) * l));
                            Query.limit (Int l)])))
         (calls_of d sched (findWithPagination o) st)
    /\ In (issued (lean_exec (find_query o
                                [Query.skip (Int ((p - 1) * l));
                                 Query.limit (Int l)])))
         (calls_of d sched (findWithPaginationLean o) st).
Proof.
  intros R EP EL Hp Hl Ht B.
  pose proof (fetch_call_logged sched o st) as [L1 L2].
  rewrite EP, EL, paging_calls_steps in L1, L2 by lia.
  rewrite (returns_meta_paginated R), EP, EL.
  cbn [paginated PaginatedResult.meta Meta.totalPages Meta.hasNextPage].
  rewrite ceil_div_Int by lia. rewrite lt_Int.
  pose proof (ceiling_bounds t (l := l) ltac:(lia)) as Bd.
  exists (- ((- t) / l)).
  split; [reflexivity|]. split; [nia|]. split; [split; intros; nia|].
  split; [|split; [exact L1|exact L2]].
  intros Hlt. split; [nia|]. apply Z.ltb_ge. lia.
Qed.

(** X6.  When the count query answers 0, the meta of [findWithPagination]
    and [findWithPaginationLean] has total = 0 and totalPages = 0 (the
    double -0 under a negative limit) for every page and every limit the
    caller may pass, and hasNextPage is page < 0, so false for every page
    p >= 0: an empty result never divides by zero and never announces a
    next page. *)
Theorem empty_total_has_no_pages
    (sched : bool) (o : option FindOptions.t) (st : Store)
    (m : Meta.t) :
  returns_meta d sched o st (Int 0) m ->
  Meta.total m = Int 0
  /\ Meta.totalPages m = Zero (lt (effective_limit o) (Int 0))
  /\ Meta.hasNextPage m = lt (effective_page o) (Int 0)
  /\ (forall p, effective_page o = Int p ->
                (Meta.hasNextPage m = true <-> p < 0)).
Proof.
  intros R.
  rewrite (returns_meta_paginated R).
  cbn [paginated PaginatedResult.meta Meta.totalPages Meta.hasNextPage
       Meta.total].
  rewrite (ceil_div_zero _ (effective_limit_truthy o)), lt_zero_sign.
  split; [reflexivity|]. split; [reflexivity|]. split; [reflexivity|].
  intros p ->. rewrite lt_Int. apply Z.ltb_lt.
Qed.

(** X7.  A negative limit is neither rejected nor replaced by the default:
    with an integer limit l < 0, a total t >= 0 answered by the count
    query and a page p >= 0, the meta has that limit, a totalPages that
    is not above 0 and hasNextPage = false, and the data fetch is made
    with that negative limit. *)
Theorem negative_limit_is_kept
    (sched : bool) (o : option FindOptions.t) (st : Store)
    (m : Meta.t) (p l t : Z) :
  returns_meta d sched o st (Int t) m ->
  effective_page o = Int p ->
  effective_limit o = Int l ->
  0 <= p -> l < 0 -> 0 <= t ->
  Meta.total m = Int t
  /\ Meta.limit m = Int l
  /\ Meta.totalPages m = ceil_div (Int t) (Int l)
  /\ lt (Int 0) (Meta.totalPages m) = false
  /\ Meta.hasNextPage m = false
  /\ In (issued (exec (find_query o (paging_calls (Int p) (Int l)))))
       (calls_of d sched (findWithPagination o) st)
  /\ In (Query.limit (Int l)) (paging_calls (Int p) (Int l)).
Proof.
  intros R EP EL Hp Hl Ht.
  pose proof (fetch_call_logged sched o st) as [L1 _].
  rewrite EP, EL in L1.
  rewrite (returns_meta_paginated R), EP, EL.
  cbn [paginated PaginatedResult.meta Meta.totalPages Meta.hasNextPage
       Meta.limit Meta.total].
  split; [reflexivity|]. split; [reflexivity|]. split; [reflexivity|].
  split; [apply ceil_div_negative_limit; lia|].
  split; [apply ceil_div_negative_limit; lia|].
  split; [exact L1|]. right. now left.
Qed.
End PaginationEdges.

Section AllOrNothing.
Context `{Schema}.
Import BaseRepositoryService.
Variables Store Error : Type.
Variable d : Driver Store Error.

Lemma all2_Ok_inv (sched : bool) A B R (a : DriverCall A)
    (b : DriverCall B) (f : A -> B -> R) (st st' : Store) (r : R) :
  run d sched (all (perform a) (perform b)
                 (fun '(x, y) => resolve (f x y))) st = (Ok r, st') ->
  exists x y st1,
    r = f x y
    /\ ((sched = true /\ d a st = (Ok x, st1) /\ d b st1 = (Ok y, st'))
        \/ (sched = false /\ d b st = (Ok y, st1)
                          /\ d a st1 = (Ok x, st'))).
Proof.
  rewrite run_all2. destruct sched.
  - destruct (d a st) as [[x|e] st1] eqn:Ea; [|discriminate].
    destruct (d b st1) as [[y|e'] st2] eqn:Eb; [|discriminate].
    intros [= <- <-]. exists x, y, st1. split; [reflexivity|]. left. auto.
  - destruct (d b st) as [[y|e] st1] eqn:Eb; [|discriminate].
    destruct (d a st1) as [[x|e'] st2] eqn:Ea; [|discriminate].
    intros [= <- <-]. exists x, y, st1. split; [reflexivity|]. right. auto.
Qed.

Lemma all2_Err_inv (sched : bool) A B R (a : DriverCall A)
    (b : DriverCall B) (f : A -> B -> R) (st st' : Store) (e : Error) :
  run d sched (all (perform a) (perform b)
                 (fun '(x, y) => resolve (f x y))) st = (Err e, st') ->
  (exists s s', d a s = (Err e, s')) \/ (exists s s', d b s = (Err e, s')).
Proof.
  rewrite run_all2. destruct sched.
  - destruct (d a st) as [[x|e0] st1] eqn:Ea.
    + destruct (d b st1) as [[y|e'] st2] eqn:Eb; [discriminate|].
      intros [= <- <-]. right. eauto.
    + intros [= <- <-]. left. eauto.
  - destruct (d b st) as [[y|e0] st1] eqn:Eb.
    + destruct (d a st1) as [[x|e'] st2] eqn:Ea; [discriminate|].
      intros [= <- <-]. left. eauto.
    + intros [= <- <-]. right. eauto.
Qed.

Lemma all2_Ok_intro (sched : bool) A B R (a : DriverCall A)
    (b : DriverCall B) (f : A -> B -> R) (st st1 st2 : Store) x y :
  (sched = true /\ d a st = (Ok x, st1) /\ d b st1 = (Ok y, st2))
  \/ (sched = false /\ d b st = (Ok y, st1) /\ d a st1 = (Ok x, st2)) ->
  run d sched (all (perform a) (perform b)
                 (fun '(x, y) => resolve (f x y))) st = (Ok (f x y), st2).
Proof.
  rewrite run_all2.
  intros [(-> & Ea & Eb) | (-> & Eb & Ea)].
  - now rewrite Ea, Eb.
  - now rewrite Eb, Ea.
Qed.

(** X8.  [findWithPagination] and [findWithPaginationLean] return a
    result exactly when the driver answers both the data fetch and the
    count: the data and meta.total are then those two answers, untouched.
    When the method rejects, the error is the very rejection of one of
    the two calls; there is no partial result and no error of the class's
    own. *)
Theorem paginated_read_is_all_or_nothing
    (sched : bool) (o : option FindOptions.t) (st st' : Store) :
  (forall r,
      run d sched (findWithPagination o) st = (Ok r, st') <->
      exists data total st1,
        r = paginated (effective_page o) (effective_limit o) data total
        /\ ((sched = true
             /\ d (exec (find_query o
                           (paging_calls (effective_page o)
                              (effective_limit o)))) st = (Ok data, st1)
             /\ d (count_call o) st1 = (Ok total, st'))
            \/ (sched = false
                /\ d (count_call o) st = (Ok total, st1)
                /\ d (exec (find_query o
                              (paging_calls (effective_page o)
                                 (effective_limit o)))) st1
                   = (Ok data, st'))))
  /\ (forall r,
        run d sched (findWithPaginationLean o) st = (Ok r, st') <->
        exists data total st1,
          r = paginated (effective_page o) (effective_limit o) data total
          /\ ((sched = true
               /\ d (lean_exec (find_query o
                                  (paging_calls (effective_page o)
                                     (effective_limit o)))) st
                  = (Ok data, st1)
               /\ d (count_call o) st1 = (Ok total, st'))
              \/ (sched = false
                  /\ d (count_call o) st = (Ok total, st1)
                  /\ d (lean_exec (find_query o
                                     (paging_calls (effective_page o)
                                        (effective_limit o)))) st1
                     = (Ok data, st'))))
  /\ (forall e,
        run d sched (findWithPagination o) st = (Err e, st') ->
        (exists s s',
            d (exec (find_query o
                       (paging_calls (effective_page o)
                          (effective_limit o)))) s = (Err e, s'))
        \/ (exists s s', d (count_call o) s = (Err e, s')))
  /\ (forall e,
        run d sched (findWithPaginationLean o) st = (Err e, st') ->
        (exists s s',
            d (lean_exec (find_query o
                            (paging_calls (effective_page o)
                               (effective_limit o)))) s = (Err e, s'))
        \/ (exists s s', d (count_call o) s = (Err e, s'))).
Proof.
  rewrite findWithPagination_shape, findWithPaginationLean_shape.
  split; [|split; [|split]].
  - intros r. split.
    + intros R. apply all2_Ok_inv in R.
      destruct R as (x & y & st1 & -> & C). eauto.
    + intros (x & y & st1 & -> & C).
      now apply all2_Ok_intro with (st1 := st1).
  - intros r. split.
    + intros R. apply all2_Ok_inv in R.
      destruct R as (x & y & st1 & -> & C). eauto.
    + intros (x & y & st1 & -> & C).
      now apply all2_Ok_intro with (st1 := st1).
  - intros e. apply all2_Err_inv.
  - intros e. apply all2_Err_inv.
Qed.

(** X9.  When the caller gives a pagination option whose page and limit
    are each either missing or truthy, the data fetch of
    [findWithPagination] is the very query [findMany] executes for the
    same options (and likewise for the lean pair): the two methods can
    differ only on a page or limit of 0 or NaN, or when there is no
    pagination option at all. *)
Theorem paginated_fetch_is_findMany
    (sched : bool) (o : option FindOptions.t) (st : Store)
    (pg : PaginationOptions.t) :
  o ?. FindOptions.pagination = Some pg ->
  truthy (default_to (PaginationOptions.page pg) (Int 1)) = true ->
  truthy (default_to (PaginationOptions.limit pg) (Int 10)) = true ->
  exists q : Query.t many,
    findMany o = perform (exec q)
    /\ findManyLean o = perform (lean_exec q)
    /\ In (issued (exec q)) (calls_of d sched (findWithPagination o) st)
    /\ In (issued (lean_exec q))
         (calls_of d sched (findWithPaginationLean o) st).
Proof.
  intros E Tp Tl.
  assert (EP : effective_page o
               = default_to (PaginationOptions.page pg) (Int 1)).
  { unfold effective_page. rewrite E. simpl.
    destruct (PaginationOptions.page pg) as [v|]; [|reflexivity].
    simpl in *. now rewrite Tp. }
  assert (EL : effective_limit o
               = default_to (PaginationOptions.limit pg) (Int 10)).
  { unfold effective_limit. rewrite E. simpl.
    destruct (PaginationOptions.limit pg) as [v|]; [|reflexivity].
    simpl in *. now rewrite Tl. }
  exists (find_query o (paging_calls (effective_page o) (effective_limit o))).
  rewrite findMany_query, findManyLean_query, E, <- EP, <- EL.
  rewrite findWithPagination_shape, findWithPaginationLean_shape,
    !calls_of_all2.
  repeat split; destruct sched; simpl; auto.
Qed.
End AllOrNothing.

Section AdjacentPages.
Context `{Schema}.
Import BaseRepositoryService.

(** X10.  The pages [findMany] and [findManyLean] fetch for one limit l
    are adjacent windows: page 1 starts at offset 0, and the skip of page
    p+1 is the skip of page p plus l, so consecutive pages neither
    overlap nor leave a gap, for every page p >= 1 and limit l >= 0 whose
    offsets stay within 2^53 (p < 2^53 and p*l <= 2^53). *)
Theorem consecutive_pages_are_adjacent
    (o : option FindOptions.t) (p l : Z) :
  1 <= p < two53 -> 0 <= l -> p * l <= two53 ->
  exists s,
    s = (p - 1) * l
    /\ (p = 1 -> s = 0)
    /\ findMany
         (Some (FindOptions.with_pagination o
                  {| PaginationOptions.page := Some (Int p);
                     PaginationOptions.limit := Some (Int l) |}))
       = perform (exec (find_query o [Query.skip (Int s);
                                      Query.limit (Int l)]))
    /\ findMany
         (Some (FindOptions.with_pagination o
                  {| PaginationOptions.page := Some (Int (p + 1));
                     PaginationOptions.limit := Some (Int l) |}))
       = perform (exec (find_query o [Query.skip (Int (s + l));
                                      Query.limit (Int l)]))
    /\ findManyLean
         (Some (FindOptions.with_pagination o
                  {| PaginationOptions.page := Some (Int p);
                     PaginationOptions.limit := Some (Int l) |}))
       = perform (lean_exec (find_query o [Query.skip (Int s);
                                           Query.limit (Int l)]))
    /\ findManyLean
         (Some (FindOptions.with_pagination o
                  {| PaginationOptions.page := Some (Int (p + 1));
                     PaginationOptions.limit := Some (Int l) |}))
       = perform (lean_exec (find_query o [Query.skip (Int (s + l));
                                           Query.limit (Int l)])).
Proof.
  intros Hp Hl B.
  exists ((p - 1) * l).
  split; [reflexivity|]. split; [intros ->; reflexivity|].
  rewrite !findMany_query, !findManyLean_query,
    !find_query_with_pagination.
  cbn [option_map chain FindOptions.with_pagination
       FindOptions.pagination default_to PaginationOptions.page
       PaginationOptions.limit].
  rewrite !paging_calls_steps by nia.
  unfold paging_steps.
  replace ((p + 1 - 1) * l) with ((p - 1) * l + l) by ring.
  repeat split.
Qed.
End AdjacentPages.

(* ================================================================== *)
(** ** The statements at work on the users collection *)
(* ================================================================== *)

#[local] Existing Instance Users.schema.
#[local] Existing Instance Users.collection.

Lemma update_returns_updated_witness :
  run (@Reference.driver _ Users.collection) true
    (BaseRepositoryService.updateById (Users.id 3)
       (Users.set_name "B") None)
    Users.twenty_five
  = (Ok (Some (Users.user_update (Users.set_name "B") (Users.user 3))),
     Reference.update_first (has_id (Users.id 3))
       (apply_update (Users.set_name "B")) Users.twenty_five).
Proof.
  destruct (@update_returns_updated _ Users.collection true
              (Users.id 3) (Users.named "A") (Users.set_name "B")
              None Users.twenty_five (Users.user 3) (Users.user 0)
              eq_refl eq_refl)
    as (_ & _ & _ & _ & W & _).
  apply W. right. reflexivity.
Defined.

Lemma update_runs_validators_by_default_witness :
  run (@Reference.driver _ Users.collection) true
    (BaseRepositoryService.updateById (Users.id 3)
       (Users.set_name "") None)
    Users.twenty_five
  = (Err Reference.ValidationError, Users.twenty_five)
  /\ run (@Reference.driver _ Users.collection) true
       (BaseRepositoryService.updateById (Users.id 3)
          (Users.set_name "")
          (Some {| UpdateOptions.session := None;
                   UpdateOptions.runValidators := Some false |}))
       Users.twenty_five
     = (Ok (Some (Users.user_update (Users.set_name "") (Users.user 3))),
        Reference.update_first (has_id (Users.id 3))
          (apply_update (Users.set_name "")) Users.twenty_five).
Proof.
  destruct (@update_runs_validators_by_default _ Users.collection true
              (Users.id 3) (Users.named "A") (Users.set_name "")
              None false Users.twenty_five (Users.user 3))
    as (_ & _ & _ & _ & _ & _ & _ & _ & _ & W).
  apply W; reflexivity.
Defined.

Lemma not_found_is_null_witness :
  run (@Reference.driver _ Users.collection) true
    (BaseRepositoryService.updateById (Users.id 99)
       (Users.set_name "B") None)
    Users.twenty_five
  = (Ok None, Users.twenty_five)
  /\ run (@Reference.driver _ Users.collection) true
       (BaseRepositoryService.findById (Users.id 99) None)
       Users.twenty_five
     = (Ok None, Users.twenty_five)
  /\ run (@Reference.driver _ Users.collection) true
       (BaseRepositoryService.deleteOne (Users.named "Z") None)
       Users.twenty_five
     = (Ok None, Users.twenty_five)
  /\ run (@Reference.driver _ Users.collection) true
       (BaseRepositoryService.findOne
          (Some (Users.filtered (Users.named "Z"))))
       Users.twenty_five
     = (Ok None, Users.twenty_five).
Proof.
  destruct (@not_found_is_null _ Users.collection
              _ _ (@Reference.driver _ Users.collection) Users.twenty_five
              true (Users.id 99) (Users.named "Z") (Users.set_name "B")
              None None None Users.twenty_five)
    as (_ & _ & _ & _ & _ & _ & _ & W1 & W2 & _).
  destruct (@not_found_is_null _ Users.collection
              _ _ (@Reference.driver _ Users.collection) Users.twenty_five
              true (Users.id 99) (Users.named "Z") (Users.set_name "B")
              None None (Some (Users.filtered (Users.named "Z")))
              Users.twenty_five)
    as (_ & _ & _ & _ & _ & _ & _ & _ & _ & W3).
  destruct (W1 eq_refl) as (U & _ & F & _).
  destruct (W2 eq_refl) as (_ & D).
  destruct (W3 eq_refl) as (O & _).
  split; [exact U|]. split; [exact F|]. split; [exact D | exact O].
Defined.


(** C2 as the specification words it, with the integer (page-1)*limit,
    fails beyond 2^53: page 94906268 with limit 94906267, both doubles,
    has (page-1)*limit = 9007199515875289, and the skip [findMany] and
    [findManyLean] execute is the double 9007199515875288. *)
Lemma findMany_skip_rounds_beyond_two53 :
  is_double (Int 94906268) = true
  /\ is_double (Int 94906267) = true
  /\ (94906268 - 1) * 94906267 = 9007199515875289
  /\ executed
       (BaseRepositoryService.findMany
          (Some (Users.paged (Some (Int 94906268))
                   (Some (Int 94906267)))))
     = [Query.skip (Int 9007199515875288); Query.limit (Int 94906267)]
  /\ executed
       (BaseRepositoryService.findManyLean
          (Some (Users.paged (Some (Int 94906268))
                   (Some (Int 94906267)))))
     = [Query.skip (Int 9007199515875288); Query.limit (Int 94906267)]
  /\ BaseRepositoryService.findMany
       (Some (Users.paged (Some (Int 94906268)) (Some (Int 94906267))))
     <> perform
          (exec (find_query
                   (Some (Users.paged (Some (Int 94906268))
                            (Some (Int 94906267))))
                   (paging_steps 94906268 94906267))).
Proof.
  split; [vm_compute; reflexivity|].
  split; [vm_compute; reflexivity|].
  split; [reflexivity|].
  split; [vm_compute; reflexivity|].
  split; [vm_compute; reflexivity|].
  intros E. apply (f_equal (@executed Users.schema _)) in E.
  vm_compute in E. discriminate E.
Qed.

Lemma findWithPagination_two_independent_calls_witness :
  @effective_page Users.schema None = Int 1
  /\ @effective_limit Users.schema None = Int 10.
Proof.
  destruct (@findWithPagination_two_independent_calls _ Users.collection
              _ _ (@Reference.driver _ Users.collection) true None
              Users.twenty_five Users.twenty_five)
    as (W & _).
  apply W. reflexivity.
Defined.

Lemma findWithPaginationLean_same_query_witness :
  PaginatedResult.meta
    (paginated (Int 3) (Int 10) (List.map Users.user (seq 20 5)) (Int 25))
  = PaginatedResult.meta
      (paginated (Int 3) (Int 10)
         (List.map (@flatten _ Users.collection)
            (List.map Users.user (seq 20 5)))
         (Int 25)).
Proof.
  destruct (@findWithPaginationLean_same_query _ Users.collection
              _ _ (@Reference.driver _ Users.collection) true
              (Some (Users.paged (Some (Int 3)) (Some (Int 10))))
              Users.twenty_five Users.twenty_five)
    as (_ & _ & W & _).
  apply (W _ _ Users.twenty_five Users.twenty_five);
    reflexivity.
Defined.

Lemma effective_limit_never_zero_witness :
  effective_limit (Some (Users.paged (Some (Int 3)) (Some (Int 0))))
  = Int 10.
Proof.
  destruct (@effective_limit_never_zero Users.schema
              _ _ (@Reference.driver _ Users.collection) true
              (Some (Users.paged (Some (Int 3)) (Some (Int 0))))
              Users.twenty_five)
    as (_ & _ & _ & _ & _ & W & _).
  apply (W {| PaginationOptions.page := Some (Int 3);
              PaginationOptions.limit := Some (Int 0) |});
    reflexivity.
Defined.

Lemma hasNextPage_iff_documents_remain_witness :
  Meta.hasNextPage
    (PaginatedResult.meta
       (paginated (A := unit) (Int 2) (Int 10) [] (Int 25))) = true
  <-> 2 * 10 < 25.
Proof.
  apply (@hasNextPage_iff_documents_remain Users.schema
           _ _ (@Reference.driver _ Users.collection) true
           (Some (Users.paged (Some (Int 2)) (Some (Int 10))))
           Users.twenty_five _ 2 10 25).
  - left. eexists. eexists. split; [reflexivity|]. split; reflexivity.
  - reflexivity.
  - reflexivity.
  - unfold two53. lia.
  - unfold two53. lia.
Defined.

Lemma page_in_range_iff_skip_below_total_witness :
  exists tp,
    Meta.totalPages
      (PaginatedResult.meta
         (paginated (A := unit) (Int 4) (Int 10) [] (Int 25))) = Int tp
    /\ (4 <= tp <-> (4 - 1) * 10 < 25).
Proof.
  destruct (@page_in_range_iff_skip_below_total Users.schema
              _ _ (@Reference.driver _ Users.collection) true
              (Some (Users.paged (Some (Int 4)) (Some (Int 10))))
              Users.twenty_five
              (PaginatedResult.meta
                 (paginated (A := unit) (Int 4) (Int 10) [] (Int 25)))
              4 10 25)
    as (tp & E & _ & R & _).
  - left. eexists. eexists. split; [reflexivity|]. split; reflexivity.
  - reflexivity.
  - reflexivity.
  - unfold two53. lia.
  - unfold two53. lia.
  - unfold two53. lia.
  - unfold two53. lia.
  - exists tp. split; [exact E | exact R].
Defined.

Lemma empty_total_has_no_pages_witness :
  Meta.totalPages
    (PaginatedResult.meta
       (paginated (A := unit) (Int 3) (Int 10) [] (Int 0))) = Int 0.
Proof.
  apply (@empty_total_has_no_pages Users.schema
           _ _ (@Reference.driver _ Users.collection) true
           (Some (Users.paged (Some (Int 3)) (Some (Int 10))))
           [] _).
  left. eexists. eexists. split; [reflexivity|]. split; reflexivity.
Defined.

Lemma negative_limit_is_kept_witness :
  Meta.limit
    (PaginatedResult.meta
       (paginated (A := unit) (Int 1) (Int (-10)) [] (Int 25)))
  = Int (-10)
  /\ Meta.totalPages
       (PaginatedResult.meta
          (paginated (A := unit) (Int 1) (Int (-10)) [] (Int 25)))
     = Int (-2)
  /\ Meta.hasNextPage
       (PaginatedResult.meta
          (paginated (A := unit) (Int 1) (Int (-10)) [] (Int 25)))
     = false.
Proof.
  destruct (@negative_limit_is_kept Users.schema
              _ _ (@Reference.driver _ Users.collection) true
              (Some (Users.paged (Some (Int 1)) (Some (Int (-10)))))
              Users.twenty_five
              (PaginatedResult.meta
                 (paginated (A := unit) (Int 1) (Int (-10)) [] (Int 25)))
              1 (-10) 25)
    as (_ & L & T & _ & N & _).
  - left. eexists. eexists. split; [reflexivity|]. split; reflexivity.
  - reflexivity.
  - reflexivity.
  - lia.
  - lia.
  - lia.
  - split; [exact L|]. split; [|exact N].
    rewrite T. reflexivity.
Defined.

Lemma consecutive_pages_are_adjacent_witness :
  BaseRepositoryService.findMany
    (Some (Users.paged (Some (Int 3)) (Some (Int 10))))
  = perform (exec (find_query (Some (Users.paged None None))
                     [Query.skip (Int 20); Query.limit (Int 10)])).
Proof.
  destruct (@consecutive_pages_are_adjacent Users.schema
              (Some (Users.paged None None)) 2 10)
    as (s & E & _ & _ & W & _).
  - unfold two53. lia.
  - lia.
  - unfold two53. lia.
  - rewrite E in W. exact W.
Defined.

Lemma paginated_fetch_is_findMany_witness :
  exists q : Query.t many,
    BaseRepositoryService.findMany
      (Some (Users.paged (Some (Int 2)) None)) = perform (exec q)
    /\ In (issued (exec q))
         (calls_of (@Reference.driver _ Users.collection) true
            (BaseRepositoryService.findWithPagination
               (Some (Users.paged (Some (Int 2)) None)))
            Users.twenty_five).
Proof.
  destruct (@paginated_fetch_is_findMany Users.schema
              _ _ (@Reference.driver _ Users.collection) true
              (Some (Users.paged (Some (Int 2)) None))
              Users.twenty_five
              {| PaginationOptions.page := Some (Int 2);
                 PaginationOptions.limit := None |}
              eq_refl eq_refl eq_refl)
    as (q & E & _ & I & _).
  exists q. split; [exact E | exact I].
Defined.

Lemma paginated_read_is_all_or_nothing_witness :
  run (@Reference.driver _ Users.collection) true
    (BaseRepositoryService.findWithPagination
       (Some (Users.paged (Some (Int 3)) (Some (Int 10)))))
    Users.twenty_five
  = (Ok (paginated (Int 3) (Int 10) (List.map Users.user (seq 20 5))
           (Int 25)),
     Users.twenty_five).
Proof.
  destruct (@paginated_read_is_all_or_nothing Users.schema
              _ _ (@Reference.driver _ Users.collection) true
              (Some (Users.paged (Some (Int 3)) (Some (Int 10))))
              Users.twenty_five Users.twenty_five)
    as (W & _).
  apply W.
  exists (List.map Users.user (seq 20 5)), (Int 25), Users.twenty_five.
  split; [reflexivity|]. left. repeat split.
Defined.
